(** * Pi-hole network monitoring: domain classification, list updates
      and log aggregation

    A shallow embedding of [pihole-monitoring/log_parser.py] and
    [pihole-monitoring/domain_updater.py], with the properties of the
    design document stated against it.

    Conventions of the embedding.
    - A Python [str] is a [string]; a character stands for the code point
      of the same number, so the embedding covers the code points
      U+0000..U+00FF.  [PyStr] gives the [str] methods the program calls
      ([lower], [strip], [split], [splitlines], [startswith], [endswith])
      on that range.
    - A Python [set] of strings is a [gset string]; a [dict] that the
      program iterates over is an association list in insertion order, a
      [dict] it only looks keys up in is a [gmap].
    - Effects of the updater (HTTP requests, sleeping, the file system,
      the clock) are threaded through a [World]; a Python exception is
      the [Raise] outcome of a computation.
    - What the parser asks of its host is a [Host]: the clock and the
      time zone, the times that pandas can hold, and the regular
      expressions of [re] that are not interpreted here.
    - Calls to [logger] are left out, and with them what the handlers of
      [logging.basicConfig] write to: the console and the application log
      (logs/application.log).  They change no value the program computes
      and raise nothing.  So [files] of a [World] holds the data files,
      every file but the application log, and a statement that files are
      as they were speaks of the data files only. *)

From Stdlib Require Import ZArith Ascii Floats Uint63 Lia.
From stdpp Require Import base gmap sets list strings sorting.

Local Open Scope Z_scope.
(* stdpp keeps [simpl] from unfolding string append; the proofs below
   compute with it. *)
Local Arguments String.append !_ _ / : simpl nomatch.

(* ===================================================================== *)
(** ** Python string methods *)
(* ===================================================================== *)

Module PyStr.

(** [str.isspace] on one character: U+0009..U+000D, U+001C..U+001F,
    U+0020, U+0085 and U+00A0. *)
Definition isspace (c : ascii) : bool :=
  let n := N_of_ascii c in
  ((9 <=? n) && (n <=? 13) || (28 <=? n) && (n <=? 31)
   || (n =? 32) || (n =? 133) || (n =? 160))%N.

(** The line boundaries of [str.splitlines]: LF, VT, FF, CR, FS, GS, RS
    and NEL (CR LF counts as one boundary, see [splitlines_go]). *)
Definition is_linebreak (c : ascii) : bool :=
  let n := N_of_ascii c in
  ((10 <=? n) && (n <=? 13) || (28 <=? n) && (n <=? 30) || (n =? 133))%N.

(** [str.lower] on one character: A..Z and the capital letters of
    U+00C0..U+00DE (all but the multiplication sign U+00D7) move up by
    32; every other character is its own lower case. *)
Definition lower_char (c : ascii) : ascii :=
  let n := N_of_ascii c in
  if ((65 <=? n) && (n <=? 90)
      || (192 <=? n) && (n <=? 222) && negb (n =? 215))%N
  then ascii_of_N (n + 32) else c.

Fixpoint lower (s : string) : string :=
  match s with
  | EmptyString => EmptyString
  | String c s' => String (lower_char c) (lower s')
  end.

Fixpoint lstrip (s : string) : string :=
  match s with
  | EmptyString => EmptyString
  | String c s' => if isspace c then lstrip s' else s
  end.

Fixpoint rstrip (s : string) : string :=
  match s with
  | EmptyString => EmptyString
  | String c s' =>
      match rstrip s' with
      | EmptyString => if isspace c then EmptyString else String c EmptyString
      | r => String c r
      end
  end.

(** [s.strip()] *)
Definition strip (s : string) : string := rstrip (lstrip s).

(** [s.startswith(p)] *)
Definition startswith (s p : string) : bool := String.prefix p s.

(** [s.endswith(suffix)]: some tail of [s] is [suffix]. *)
Fixpoint endswith (s suffix : string) : bool :=
  String.eqb s suffix
  || match s with
     | EmptyString => false
     | String _ s' => endswith s' suffix
     end.

(** [s.splitlines()], [cur] being the line read so far.  A text that
    ends in a line boundary has no empty last line. *)
Fixpoint splitlines_go (cur s : string) : list string :=
  match s with
  | EmptyString => if String.eqb cur "" then [] else [cur]
  | String c s' =>
      if is_linebreak c then
        match s' with
        | String c' s'' =>
            if Ascii.eqb c "013" && Ascii.eqb c' "010"
            then cur :: splitlines_go "" s''
            else cur :: splitlines_go "" s'
        | EmptyString => [cur]
        end
      else splitlines_go (cur +:+ String c "") s'
  end.

Definition splitlines (s : string) : list string := splitlines_go "" s.

(** [s.split()]: the maximal runs of characters that are not white
    space. *)
Fixpoint split_go (cur s : string) : list string :=
  match s with
  | EmptyString => if String.eqb cur "" then [] else [cur]
  | String c s' =>
      if isspace c then
        if String.eqb cur "" then split_go "" s' else cur :: split_go "" s'
      else split_go (cur +:+ String c "") s'
  end.

Definition split (s : string) : list string := split_go "" s.

(** [needle in s] on strings. *)
Fixpoint contains (s needle : string) : bool :=
  String.prefix needle s
  || match s with
     | EmptyString => false
     | String _ s' => contains s' needle
     end.

End PyStr.

(* ===================================================================== *)
(** ** log_parser.py: classification *)
(* ===================================================================== *)

(** One row of the [queries] table, as the SELECT of [parse_logs] reads
    it: two texts and two integers.  A row with a NULL, and a row whose
    [timestamp] is -2^63, which pandas reads as "not a time", are
    outside the embedding. *)
Record QueryRecord := {
  client : string;
  domain : string;
  timestamp : Z;
  status : Z
}.

(** What [sqlite3] finds at [db_path]. *)
Inductive Database :=
  | DbMissing                              (* no file at db_path *)
  | DbCorrupt                              (* connect or execute raises *)
  | DbNoQueriesTable                       (* the file has no table queries *)
  | DbUnreadable                           (* the table is there, the SELECT raises *)
  | DbQueries (rows : list QueryRecord).

(** The fields of a [LogParser] object.  [categories] is the dict filled
    by [_load_categories], in insertion order. *)
Record LogParser := {
  db : Database;
  categories : list (string * gset string);
  device_map : gmap string string
}.

(** The inner loop of [categorize_domain] (lines 83-85) over the
    elements of one category's set. *)
Fixpoint scan_domains (domain : string) (cat_domains : list string) : bool :=
  match cat_domains with
  | [] => false
  | cat_domain :: rest =>
      if PyStr.endswith domain ("." +:+ cat_domain) || String.eqb domain cat_domain
      then true
      else scan_domains domain rest
  end.

(** The outer loop of [categorize_domain] (lines 77-87). *)
Fixpoint categorize_loop (domain : string) (items : list (string * gset string)) : string :=
  match items with
  | [] => "uncategorized"
  | (category, domains) :: rest =>
      if bool_decide (domain ∈ domains) then category
      else if scan_domains domain (elements domains) then category
      else categorize_loop domain rest
  end.

Definition categorize_domain (self : LogParser) (domain : string) : string :=
  let domain := PyStr.strip (PyStr.lower domain) in
  categorize_loop domain (categories self).

(* ===================================================================== *)
(** ** log_parser.py: reading and filtering the query log *)
(* ===================================================================== *)

(** A Python exception, by the classes the program tells apart.  The
    message of an exception that the outside raises is the outside's;
    the message of one that the embedding builds stands for the text
    Python gives it, and no statement rests on it. *)
Inductive exn :=
  | RequestException (msg : string)   (* requests.exceptions.RequestException and its subclasses *)
  | AttributeError (msg : string)
  | OSError (msg : string)
  | DatabaseError (msg : string)      (* sqlite3.Error, pandas' DatabaseError *)
  | OverflowError (msg : string)
  | OtherException (msg : string).    (* any other subclass of Exception *)

(** How a call ends: with a value, or with an exception. *)
Inductive outcome (A : Type) :=
  | Return (a : A)
  | Raise (e : exn).
Arguments Return {A} a.
Arguments Raise {A} e.

(** [check_db_connection] (lines 89-107). *)
Definition check_db_connection (self : LogParser) : bool :=
  match db self with
  | DbMissing => false
  | DbCorrupt => false
  | DbNoQueriesTable => false
  | DbUnreadable => true
  | DbQueries _ => true
  end.

(** ORDER BY timestamp DESC, as an insertion sort that keeps rows of one
    timestamp in table order (SQL leaves their order open). *)
Fixpoint insert_desc (r : QueryRecord) (l : list QueryRecord) : list QueryRecord :=
  match l with
  | [] => [r]
  | r' :: l' =>
      if timestamp r' <=? timestamp r then r :: l else r' :: insert_desc r l'
  end.

Fixpoint order_by_timestamp_desc (l : list QueryRecord) : list QueryRecord :=
  match l with
  | [] => []
  | r :: l' => insert_desc r (order_by_timestamp_desc l')
  end.

(** [pd.read_sql(query, conn, params=[start])] (lines 118-127). *)
Definition read_sql (d : Database) (start : Z) : outcome (list QueryRecord) :=
  match d with
  | DbQueries rows =>
      Return (order_by_timestamp_desc (filter (λ r, start ≤ timestamp r) rows))
  | DbUnreadable => Raise (DatabaseError "Execution failed on sql")
  | DbNoQueriesTable => Raise (DatabaseError "no such table: queries")
  | DbCorrupt => Raise (DatabaseError "file is not a database")
  | DbMissing => Raise (DatabaseError "unable to open database file")
  end.

(** A row of the DataFrame that [parse_logs] returns: the four columns
    read, and the columns of lines 134-144. *)
Record LogRow := {
  query : QueryRecord;
  Time : Z;                    (* seconds since the epoch, UTC *)
  Device : string;
  Category : string;
  Hour : Z;
  Date : Z;                    (* days since the epoch *)
  Status_Description : string
}.

(** [status_map] of lines 141-143. *)
Definition status_map : gmap Z string :=
  list_to_map
    [ (0, "Unknown"); (1, "Blocked (gravity)"); (2, "Allowed");
      (3, "Blocked (regex)"); (4, "Blocked (exact)"); (5, "Blocked (CNAME)");
      (9, "Blocked (gravity, CNAME)"); (10, "Blocked (regex, CNAME)");
      (11, "Blocked (exact, CNAME)") ].

(** Lines 134-144 on one row whose time pandas can hold (see
    [to_datetime_ok] below for the rows it cannot). *)
Definition process_row (self : LogParser) (r : QueryRecord) : LogRow :=
  {| query := r;
     Time := timestamp r;
     Device := default (client r) (device_map self !! client r);
     Category := categorize_domain self (domain r);
     Hour := (timestamp r `div` 3600) `mod` 24;
     Date := timestamp r `div` 86400;
     Status_Description := default "Unknown" (status_map !! status r) |}.

(** *** The pattern language of [Series.str.contains]

    [str.contains(pat, case=False, na=False)] leaves [regex] at its
    default [True]: [pat] is compiled by [re] with [re.IGNORECASE] and
    searched in each device name.  The patterns made of ordinary
    characters and [.] are interpreted here: [re_compile] gives their
    items, and [None] on a pattern that holds any other special
    character of [re].  Such a pattern is left to the [re] of the host
    (see [str_contains] below). *)
Inductive ReItem :=
  | ReLit (c : ascii)          (* an ordinary character *)
  | ReDot.                     (* [.]: any character but a newline *)

(** The special characters of [re]: . ^ $ * + ? { } [ ] \ | ( ) *)
Definition re_special (c : ascii) : bool :=
  bool_decide (N_of_ascii c ∈ [46; 94; 36; 42; 43; 63; 123; 125; 91; 93; 92; 124; 40; 41]%N).

Fixpoint re_compile (pat : string) : option (list ReItem) :=
  match pat with
  | EmptyString => Some []
  | String c pat' =>
      if Ascii.eqb c "." then (ReDot ::.) <$> re_compile pat'
      else if re_special c then None
      else (ReLit c ::.) <$> re_compile pat'
  end.

(** One item against one character, under [re.IGNORECASE]. *)
Definition re_item_matches (it : ReItem) (x : ascii) : bool :=
  match it with
  | ReLit c => Ascii.eqb (PyStr.lower_char c) (PyStr.lower_char x)
  | ReDot => negb (Ascii.eqb x "010")
  end.

(** The compiled pattern matches at the start of [s]. *)
Fixpoint re_match_here (items : list ReItem) (s : string) : bool :=
  match items, s with
  | [], _ => true
  | _ :: _, EmptyString => false
  | it :: items', String x s' => re_item_matches it x && re_match_here items' s'
  end.

(** [regex.search(s) is not None] *)
Fixpoint re_search (items : list ReItem) (s : string) : bool :=
  re_match_here items s
  || match s with
     | EmptyString => false
     | String _ s' => re_search items s'
     end.

(** What the host of the parser answers: its clock and its time zone,
    and the two libraries, pandas and [re], where their code and not the
    repository's decides. *)
Record Host := {
  (* [datetime.now()]: the wall clock, in microseconds since
     0001-01-01T00:00:00, the least [datetime] *)
  now_local : Z;
  (* [int(start_time.timestamp())] for the local midnight that begins
     the day [d], counted from 0001-01-01: seconds since the epoch by
     the rules of the time zone, or what the call raises *)
  local_timestamp : Z → outcome Z;
  (* whether lines 134-138 can hold the time [t] seconds after the
     epoch: [pd.to_datetime] raises OutOfBoundsDatetime when they
     cannot *)
  to_datetime_ok : Z → bool;
  (* [re.compile(pat, re.IGNORECASE)] for a pattern that [re_compile]
     does not interpret: [None] when it raises [re.error], and
     otherwise the test [regex.search(s) is not None] *)
  re_host : string → option (string → bool)
}.

Definition microseconds_per_day : Z := 86400000000.

(** [date.max.toordinal()]: the days from 0001-01-01 to 9999-12-31. *)
Definition max_ordinal : Z := 3652059.

(** Lines 114-116: [(datetime.now() - timedelta(days=days)).replace(
    hour=0, minute=0, second=0, microsecond=0)], as the day of the
    result counted from 0001-01-01.  [timedelta] takes at most 999999999
    days either way, and the difference has to be a [datetime], of a
    year from 1 to 9999: [OverflowError] is raised otherwise. *)
Definition start_time (host : Host) (days : Z) : outcome Z :=
  if 999999999 <? Z.abs days
  then Raise (OverflowError "days; must have magnitude <= 999999999")     (* timedelta *)
  else
    let t := now_local host - days * microseconds_per_day in
    if (0 <=? t) && (t <? max_ordinal * microseconds_per_day)
    then Return (t `div` microseconds_per_day)
    else Raise (OverflowError "date value out of range").

(** The test that [df['Device'].str.contains(pat, case=False, na=False)]
    applies to each device name, or [None] when compiling [pat] raises
    [re.error]. *)
Definition str_contains (host : Host) (pat : string) : option (string → bool) :=
  match re_compile pat with
  | Some items => Some (re_search items)
  | None => re_host host pat
  end.

(** The body of the [try] of [parse_logs] (lines 126-151), for the
    window that starts with the day [start_day]. *)
Definition parse_logs_try (host : Host) (self : LogParser) (start_day : Z)
    (device_filter : option string) : outcome (list LogRow) :=
  match local_timestamp host start_day with
  | Raise e => Raise e
  | Return start =>
      match read_sql (db self) start with
      | Raise e => Raise e
      | Return [] => Return []                                 (* lines 129-131 *)
      | Return rows =>
          if forallb (λ r, to_datetime_ok host (timestamp r)) rows then
            let df := process_row self <$> rows in
            match device_filter with
            | None => Return df
            | Some pat =>
                if String.eqb pat "" then Return df            (* [if device_filter:] *)
                else
                  match str_contains host pat with
                  | Some matches =>
                      Return (filter (λ row, matches (Device row) = true) df)
                  | None => Raise (OtherException "re.error")
                  end
            end
          else Raise (OtherException "OutOfBoundsDatetime")
      end
  end.

(** [parse_logs] (lines 109-155).  The result is the list of rows of the
    DataFrame returned (an empty DataFrame is []).  The start of the
    window is computed before the [try]: what it raises leaves the
    call. *)
Definition parse_logs (host : Host) (self : LogParser) (days : Z)
    (device_filter : option string) : outcome (list LogRow) :=
  if negb (check_db_connection self) then Return []            (* lines 111-112 *)
  else
    match start_time host days with
    | Raise e => Raise e
    | Return start_day =>
        match parse_logs_try host self start_day device_filter with
        | Return df => Return df
        | Raise _ => Return []                                 (* lines 153-155 *)
        end
    end.

(* ===================================================================== *)
(** ** log_parser.py: the summary *)
(* ===================================================================== *)

(** The values of the summary dict. *)
Inductive PyVal :=
  | PyInt (n : Z)
  | PyFloat (x : float)
  | PyStrDict (items : list (string * string))
  | PyIntDict (items : list (string * Z)).

(** [float(n)] for a count [n] (exact below 2^53). *)
Definition float_of_Z (n : Z) : float := PrimFloat.of_uint63 (Uint63.of_Z n).

(** [len(df[df['status'] != 2])] *)
Definition blocked_count (df : list LogRow) : Z :=
  Z.of_nat (length (filter (λ row, status (query row) ≠ 2) df)).

(** [series.nunique()] *)
Definition nunique (values : list string) : Z :=
  Z.of_nat (size (list_to_set values : gset string)).

Section Pandas.

(** [Timestamp.isoformat()] of a time given in seconds since the epoch. *)
Variable isoformat : Z → string.
(** [series.value_counts()] as the list of (value, count), most frequent
    first; pandas leaves the order of equal counts open. *)
Variable value_counts : list string → list (string * Z).

(** [generate_summary] (lines 157-177): a dict from field name to value. *)
Definition generate_summary (df : list LogRow) : gmap string PyVal :=
  match df with
  | [] => ∅                                                (* lines 159-160 *)
  | row0 :: rest =>
      let total := Z.of_nat (length df) in
      list_to_map
        [ ("total_queries", PyInt total);
          ("unique_domains", PyInt (nunique ((domain ∘ query) <$> df)));
          ("unique_devices", PyInt (nunique (Device <$> df)));
          ("date_range",
           PyStrDict [ ("start", isoformat (foldr Z.min (Time row0) (Time <$> rest)));
                       ("end", isoformat (foldr Z.max (Time row0) (Time <$> rest))) ]);
          ("top_categories", PyIntDict (take 10 (value_counts (Category <$> df))));
          ("top_domains", PyIntDict (take 10 (value_counts ((domain ∘ query) <$> df))));
          ("device_activity", PyIntDict (value_counts (Device <$> df)));
          ("blocked_queries", PyInt (blocked_count df));
          ("blocked_percentage",
           if 0 <? total
           then PyFloat (float_of_Z (blocked_count df) / float_of_Z total * 100)%float
           else PyInt 0) ]
  end.

(** [summary.get(key, 0)], as the dashboard reads a count. *)
Definition summary_get (summary : gmap string PyVal) (key : string) : PyVal :=
  default (PyInt 0) (summary !! key).

(** The aggregation pipeline: [parse_logs] followed by
    [generate_summary]. *)
Definition aggregate (host : Host) (self : LogParser) (days : Z)
    (device_filter : option string) : outcome (gmap string PyVal) :=
  match parse_logs host self days device_filter with
  | Return df => Return (generate_summary df)
  | Raise e => Raise e
  end.

End Pandas.

(* ===================================================================== *)
(** ** domain_updater.py: the world the updater runs in *)
(* ===================================================================== *)

(** The update metadata record of [update_all_lists] (lines 118-123), as
    [json.dump] stores it. *)
Record Metadata := {
  last_update : string;
  results : gmap string bool;
  total_categories : Z;
  successful_updates : Z
}.

(** What a file holds. *)
Inductive FileContent :=
  | Text (s : string)
  | Json (m : Metadata).

(** What the run does to the outside, in order. *)
Inductive Event :=
  | EvGet (url : string)                          (* session.get(url, ...) *)
  | EvSleep (seconds : Z)                         (* time.sleep(seconds) *)
  | EvDisk (snapshot : gmap string FileContent).  (* the files after a change *)

(** The outside of a run.  [net], [disk_fault] and [now] are what the
    outside will answer; the other fields are the state of the run.
    [files] maps a path, as the program passes it to [open], to what the
    data file there holds; the application log that [logger] appends to
    is not among them. *)
Record World := {
  net : nat → string → outcome string;   (* the answer to request number n, sent to a url:
                                            response.text, or what get or raise_for_status raise *)
  disk_fault : nat → bool;               (* file-system operation number n raises OSError *)
  now : string;                          (* datetime.now().isoformat() *)
  requests : nat;                        (* requests sent so far *)
  io_ops : nat;                          (* file-system operations so far *)
  files : gmap string FileContent;       (* the data files, by path *)
  trace : list Event
}.

(** Computations over the world that may raise. *)
Definition M (A : Type) : Type := World → outcome A * World.

Definition ret {A} (a : A) : M A := λ w, (Return a, w).
Definition raise {A} (e : exn) : M A := λ w, (Raise e, w).
Definition bind {A B} (m : M A) (k : A → M B) : M B :=
  λ w, match m w with
       | (Return a, w') => k a w'
       | (Raise e, w') => (Raise e, w')
       end.
(** [try: m  except Exception as e: ...]: the outcome of [m] as a value. *)
Definition try {A} (m : M A) : M (outcome A) :=
  λ w, match m w with (r, w') => (Return r, w') end.

Notation "'do' x <- m ; k" := (bind m (λ x, k))
  (at level 10, x name, m at level 100, k at level 200).
Notation "m ;; k" := (bind m (λ _, k))
  (at level 100, k at level 200, right associativity).

(** [self.session.get(url, timeout=self.timeout)] with
    [response.raise_for_status()] and [response.text] (lines 43-45). *)
Definition session_get (url : string) : M string :=
  λ w, (net w (requests w) url,
        {| net := net w; disk_fault := disk_fault w; now := now w;
           requests := S (requests w); io_ops := io_ops w; files := files w;
           trace := trace w ++ [EvGet url] |}).

(** [time.sleep(seconds)] *)
Definition sleep (seconds : Z) : M unit :=
  λ w, (Return tt,
        {| net := net w; disk_fault := disk_fault w; now := now w;
           requests := requests w; io_ops := io_ops w; files := files w;
           trace := trace w ++ [EvSleep seconds] |}).

(** One file-system operation: it raises [OSError] and changes nothing
    when the disk faults, and applies [change] to the files otherwise. *)
Definition fs_op (change : gmap string FileContent → gmap string FileContent) : M unit :=
  λ w, if disk_fault w (io_ops w)
       then (Raise (OSError "Errno"),
             {| net := net w; disk_fault := disk_fault w; now := now w;
                requests := requests w; io_ops := S (io_ops w); files := files w;
                trace := trace w |})
       else (Return tt,
             {| net := net w; disk_fault := disk_fault w; now := now w;
                requests := requests w; io_ops := S (io_ops w);
                files := change (files w);
                trace := trace w ++ [EvDisk (change (files w))] |}).

(** [path.mkdir(parents=True, exist_ok=True)]: directories are not files. *)
Definition mkdir (path : string) : M unit := fs_op id.

(** [open(path, 'w')]: the file is created or cut to length 0. *)
Definition open_w (path : string) : M unit := fs_op (<[path := Text ""]>).

(** [f.write(data)] on the file opened at [path]: [data] goes after what
    was written since [open]. *)
Definition write (path data : string) : M unit :=
  fs_op (λ fs, match fs !! path with
               | Some (Text old) => <[path := Text (old +:+ data)]> fs
               | _ => <[path := Text data]> fs
               end).

(** [json.dump(metadata, f, indent=2)] on the file opened at [path]. *)
Definition json_dump (path : string) (m : Metadata) : M unit :=
  fs_op (<[path := Json m]>).

(** [datetime.now().isoformat()] *)
Definition clock_isoformat : M string := λ w, (Return (now w), w).

(* ===================================================================== *)
(** ** domain_updater.py: DomainUpdater *)
(* ===================================================================== *)

(** The fields of a [DomainUpdater] object that the run reads:
    [domains_path] is the [Path] of that name as [str] prints it
    ([timeout] is passed to [session.get]; [net] answers for it). *)
Record DomainUpdater := {
  domains_path : string;
  max_retries : Z;
  timeout : Z
}.

(** The loop of [download_with_retry] (lines 40-51): [remaining] values
    of [range(retries)] are left, the next one is [attempt]. *)
Fixpoint retry_loop (url : string) (retries : Z) (remaining : nat) (attempt : Z)
  : M (option string) :=
  match remaining with
  | O => ret None                                  (* the loop is over: no return statement *)
  | S remaining' =>
      do r <- try (session_get url);
      match r with
      | Return text => ret (Some text)
      | Raise (RequestException msg) =>
          if attempt <? retries - 1
          then sleep (2 ^ attempt) ;; retry_loop url retries remaining' (attempt + 1)
          else raise (RequestException msg)
      | Raise e => raise e                         (* not a RequestException: not caught *)
      end
  end.

(** [download_with_retry(url, retries=None)] (lines 35-51); the result
    [None] is Python's [None]. *)
Definition download_with_retry (self : DomainUpdater) (url : string) (retries : option Z)
  : M (option string) :=
  let retries := default (max_retries self) retries in
  retry_loop url retries (Z.to_nat retries) 0.

(** The body of the loop of [process_hosts_file] (lines 57-69). *)
Definition process_line (domains : gset string) (line : string) : gset string :=
  let line := PyStr.strip line in
  if String.eqb line "" || PyStr.startswith line "#" then domains
  else
    match PyStr.split line with
    | part0 :: part1 :: _ =>
        if bool_decide (part0 ∈ ["0.0.0.0"; "127.0.0.1"]) then
          if negb (String.eqb part1 "localhost") then {[part1]} ∪ domains else domains
        else {[line]} ∪ domains
    | _ => {[line]} ∪ domains
    end.

(** [process_hosts_file(content)] (lines 53-71) on a string. *)
Definition process_hosts_file (content : string) : gset string :=
  foldl process_line ∅ (PyStr.splitlines content).

(** [process_hosts_file] on what [download_with_retry] returned:
    [None.splitlines()] raises [AttributeError]. *)
Definition process_hosts_file_of (content : option string) : M (gset string) :=
  match content with
  | Some text => ret (process_hosts_file text)
  | None => raise (AttributeError "'NoneType' object has no attribute 'splitlines'")
  end.

(** The body of the [try] of lines 80-81: fetch, then normalize. *)
Definition fetch_and_normalize (self : DomainUpdater) (url : string) : M (gset string) :=
  do content <- download_with_retry self url None;
  process_hosts_file_of content.

(** The loop over [urls] of [download_category] (lines 78-88), with the
    values of [all_domains] and [success] at its end. *)
Fixpoint url_loop (self : DomainUpdater) (urls : list string) (all_domains : gset string)
  : M (gset string * bool) :=
  match urls with
  | [] => ret (all_domains, false)
  | url :: rest =>
      do r <- try (fetch_and_normalize self url);
      match r with
      | Return domains => ret (all_domains ∪ domains, true)     (* update, success, break *)
      | Raise _ => url_loop self rest all_domains               (* continue *)
      end
  end.

(** [sorted(all_domains)]: strings in code point order. *)
Definition sorted (s : gset string) : list string := merge_sort String.le (elements s).

(** The loop of lines 98-99. *)
Fixpoint write_lines (path : string) (lines : list string) : M unit :=
  match lines with
  | [] => ret tt
  | domain :: rest => write path (domain +:+ String "010" "") ;; write_lines path rest
  end.

(** [dir / name] of pathlib on POSIX, [dir] being a path as pathlib
    prints it: a [name] that starts with a separator is absolute and
    takes the place of [dir].  Pathlib also drops the doubled separators
    and the [.] components of [name]; the path given here is then
    another spelling of the same file. *)
Definition joinpath (dir name : string) : string :=
  if PyStr.startswith name "/" then name
  else if String.eqb dir "" || PyStr.endswith dir "/" then dir +:+ name
  else dir +:+ "/" +:+ name.

(** [self.domains_path / f"{category}_domains.txt"] (line 95). *)
Definition category_file (self : DomainUpdater) (category : string) : string :=
  joinpath (domains_path self) (category +:+ "_domains.txt").

(** Lines 94-105 of [download_category]: save the domains. *)
Definition save_domains (self : DomainUpdater) (category : string) (all_domains : gset string)
  : M bool :=
  let output_file := category_file self category in
  do r <- try (open_w output_file ;; write_lines output_file (sorted all_domains));
  match r with
  | Return _ => ret true
  | Raise _ => ret false
  end.

(** [download_category(category, urls)] (lines 73-105). *)
Definition download_category (self : DomainUpdater) (category : string) (urls : list string)
  : M bool :=
  do st <- url_loop self urls ∅;
  let '(all_domains, success) := st in
  if negb success then ret false
  else save_domains self category all_domains.

(** [sum(results.values())] *)
Definition sum_values (results : gmap string bool) : Z :=
  foldr (λ b acc, Z.b2z b + acc) 0 (map_to_list results).*2.

(** The loop of [update_all_lists] (lines 113-115) over the items of
    CATEGORY_SOURCES. *)
Fixpoint category_loop (self : DomainUpdater) (items : list (string * list string))
    (results : gmap string bool) : M (gmap string bool) :=
  match items with
  | [] => ret results
  | (category, urls) :: rest =>
      do ok <- download_category self category urls;
      category_loop self rest (<[category := ok]> results)
  end.

(** [self.domains_path / 'update_metadata.json'] (line 125). *)
Definition metadata_file (self : DomainUpdater) : string :=
  joinpath (domains_path self) "update_metadata.json".

(** [update_all_lists()] (lines 107-138); [CATEGORY_SOURCES] is the dict
    of config.py as the list of its items (its keys are distinct). *)
Definition update_all_lists (self : DomainUpdater) (CATEGORY_SOURCES : list (string * list string))
  : M bool :=
  mkdir (domains_path self) ;;
  do results <- category_loop self CATEGORY_SOURCES ∅;
  do last_update <- clock_isoformat;
  let metadata :=
    {| last_update := last_update;
       results := results;
       total_categories := Z.of_nat (length CATEGORY_SOURCES);
       successful_updates := sum_values results |} in
  open_w (metadata_file self) ;;
  json_dump (metadata_file self) metadata ;;
  let success_count := sum_values results in
  if success_count =? 0 then ret false else ret true.

(* ===================================================================== *)
(** ** domain_updater.py and scripts/monitor.py: the entry points *)
(* ===================================================================== *)

(** [DomainUpdater()] with the defaults of [__init__] (line 26);
    [DOMAINS_DIR] is the directory of config.py. *)
Definition DomainUpdater_init (DOMAINS_DIR : string) : DomainUpdater :=
  {| domains_path := DOMAINS_DIR; max_retries := 3; timeout := 30 |}.

(** The exit status of the interpreter after [main()] of
    domain_updater.py (lines 140-143): [sys.exit(0 if success else 1)],
    and 1 for an exception that nothing caught. *)
Definition updater_main (DOMAINS_DIR : string) (CATEGORY_SOURCES : list (string * list string))
  : World → Z * World :=
  λ w, match update_all_lists (DomainUpdater_init DOMAINS_DIR) CATEGORY_SOURCES w with
       | (Return true, w') => (0, w')
       | (Return false, w') => (1, w')
       | (Raise _, w') => (1, w')
       end.

(** [update_domains()] of scripts/monitor.py (lines 101-111);
    [imported] is how [from domain_updater import DomainUpdater] of
    line 104 ends, inside the [try]. *)
Definition update_domains (imported : outcome unit) (DOMAINS_DIR : string)
    (CATEGORY_SOURCES : list (string * list string)) : M bool :=
  do r <- try (match imported with
               | Return _ => update_all_lists (DomainUpdater_init DOMAINS_DIR) CATEGORY_SOURCES
               | Raise e => raise e
               end);
  match r with
  | Return success => ret success
  | Raise _ => ret false
  end.

(* ===================================================================== *)
(** ** log_parser.py: loading the category files *)
(* ===================================================================== *)

(** The lines that iterating over a file opened in text mode gives: a
    line ends at LF, CR or CR LF, and keeps its end as one LF. *)
Fixpoint file_lines_go (cur s : string) : list string :=
  match s with
  | EmptyString => if String.eqb cur "" then [] else [cur]
  | String c s' =>
      if Ascii.eqb c "010" then (cur +:+ String "010" "") :: file_lines_go "" s'
      else if Ascii.eqb c "013" then
        match s' with
        | String c' s'' =>
            if Ascii.eqb c' "010"
            then (cur +:+ String "010" "") :: file_lines_go "" s''
            else (cur +:+ String "010" "") :: file_lines_go "" s'
        | EmptyString => [cur +:+ String "010" ""]
        end
      else file_lines_go (cur +:+ String c "") s'
  end.

Definition file_lines (content : string) : list string := file_lines_go "" content.

(** The set comprehension of line 67 of [_load_categories]: the
    stripped lines that are not empty once stripped and do not start
    with [#] as they stand. *)
Definition load_domains (content : string) : gset string :=
  list_to_set
    (PyStr.strip <$>
       filter (λ line, PyStr.strip line ≠ "" ∧ PyStr.startswith line "#" = false)
         (file_lines content)).

(** [s.replace(old, new)] for an [old] that is not empty: occurrences
    are found from the left and do not overlap; [skip] characters of an
    occurrence just replaced are still to be passed over. *)
Fixpoint replace_go (old new : string) (skip : nat) (s : string) : string :=
  match s with
  | EmptyString => EmptyString
  | String c s' =>
      match skip with
      | S k => replace_go old new k s'
      | O =>
          if String.prefix old s
          then new +:+ replace_go old new (String.length old - 1) s'
          else String c (replace_go old new 0 s')
      end
  end.

Definition replace (s old new : string) : string := replace_go old new 0 s.

(** [domains_dir.glob("*_domains.txt")] on the name of one entry of the
    directory (the glob does not look below the directory). *)
Definition glob_domains_txt (name : string) : bool := PyStr.endswith name "_domains.txt".

(** [domain_file.stem] for a name that ends in [.txt]: the name without
    its last four characters. *)
Definition stem (name : string) : string :=
  String.substring 0 (String.length name - 4) name.

(** Line 64: the category a file stands for. *)
Definition category_of_file (name : string) : string :=
  replace (stem name) "_domains" "".

(** [d[key] = value] on a dict kept in insertion order: a key that is
    there keeps its place. *)
Fixpoint dict_set {V} (key : string) (value : V) (d : list (string * V)) : list (string * V) :=
  match d with
  | [] => [(key, value)]
  | (k, v) :: d' =>
      if String.eqb k key then (k, value) :: d' else (k, v) :: dict_set key value d'
  end.

(** The body of the loop of [_load_categories] (lines 64-71) for one
    file of the listing: its name, and its text or [None] when opening
    or reading it raises. *)
Definition load_category_file (categories : list (string * gset string))
    (entry : string * option string) : list (string * gset string) :=
  match entry.2 with
  | Some content => dict_set (category_of_file entry.1) (load_domains content) categories
  | None => categories
  end.

(** [_load_categories] (lines 57-71): [None] is a domains directory that
    does not exist, [Some listing] the entries of the directory, each by
    its name in the directory, in the order the listing gives them. *)
Definition load_categories (domains_dir : option (list (string * option string)))
  : list (string * gset string) :=
  match domains_dir with
  | None => []
  | Some listing =>
      foldl load_category_file [] (filter (λ entry, glob_domains_txt entry.1 = true) listing)
  end.

(* ===================================================================== *)
(** ** log_parser.py: the entry point *)
(* ===================================================================== *)

Section ParserMain.

Variable isoformat : Z → string.
Variable value_counts : list string → list (string * Z).

(** [main()] of log_parser.py (lines 179-188) for the parser built: the
    exit status of the interpreter, and the summary printed when there
    is one. *)
Definition parser_main (host : Host) (self : LogParser) : Z * option (gmap string PyVal) :=
  match parse_logs host self 1 None with
  | Return (row :: rest) => (0, Some (generate_summary isoformat value_counts (row :: rest)))
  | Return [] => (1, None)                           (* [sys.exit(1)] *)
  | Raise _ => (1, None)                             (* an exception that nothing catches *)
  end.

End ParserMain.

(* ===================================================================== *)
(** ** Vocabulary of the statements *)
(* ===================================================================== *)

(** [x] is [d] or a strict subdomain of [d]: [x] ends with ["." + d]. *)
Definition subdomain_or_equal (x d : string) : Prop :=
  x = d ∨ ∃ label, x = label +:+ "." +:+ d.

(** A category's domain set matches [x]: (a) [x] is a member, or (b) some
    member [d] has [x] equal to [d] or a strict subdomain of [d]. *)
Definition domain_matches (x : string) (domains : gset string) : Prop :=
  x ∈ domains ∨ ∃ d, d ∈ domains ∧ subdomain_or_equal x d.

(** The world after [n] more requests that left the events [evs]. *)
Definition advance (w : World) (n : nat) (evs : list Event) : World :=
  {| net := net w; disk_fault := disk_fault w; now := now w;
     requests := n + requests w; io_ops := io_ops w; files := files w;
     trace := trace w ++ evs |}.

(** [k] attempts on [url], numbered from [first], each followed by its
    wait: attempt [i] is followed by a sleep of [2^i] seconds. *)
Definition failed_attempts (url : string) (first k : nat) : list Event :=
  flat_map (λ i : nat, [EvGet url; EvSleep (2 ^ Z.of_nat i)]) (seq first k).

(** The events of a call that makes [k + 1] attempts: [k] attempts with
    their waits, then the last attempt with no wait after it. *)
Definition attempt_trace (url : string) (k : nat) : list Event :=
  failed_attempts url 0 k ++ [EvGet url].

(** The requests and the sleeps among some events. *)
Definition gets_of (evs : list Event) : list string :=
  omap (λ e, match e with EvGet url => Some url | _ => None end) evs.
Definition sleeps_of (evs : list Event) : list Z :=
  omap (λ e, match e with EvSleep n => Some n | _ => None end) evs.

(** The answers of the outside are the same in [w'] as in [w]. *)
Definition same_oracles (w w' : World) : Prop :=
  net w' = net w ∧ disk_fault w' = disk_fault w ∧ now w' = now w.

(** Between [w] and [w'] no file-system operation took place. *)
Definition disk_untouched (w w' : World) : Prop :=
  same_oracles w w' ∧ files w' = files w ∧ io_ops w' = io_ops w.

(** Between [w] and [w'] no request was sent. *)
Definition net_untouched (w w' : World) : Prop :=
  same_oracles w w' ∧ requests w' = requests w
  ∧ gets_of (trace w') = gets_of (trace w).

(** Every URL of the list fails in turn (its fetch or its normalization
    raises), taking the world from [w] to [w']. *)
Inductive all_fail (self : DomainUpdater) : list string → World → World → Prop :=
  | all_fail_nil w : all_fail self [] w w
  | all_fail_cons url urls w e w1 w2 :
      fetch_and_normalize self url w = (Raise e, w1) →
      all_fail self urls w1 w2 →
      all_fail self (url :: urls) w w2.

(** The text of a file of the given lines, each ended by a newline. *)
Definition file_text (lines : list string) : string :=
  foldr (λ line rest, line +:+ String "010" rest) "" lines.

(** A world at the start of a run. *)
Definition initial_world (net : nat → string → outcome string) (disk_fault : nat → bool)
    (files : gmap string FileContent) : World :=
  {| net := net; disk_fault := disk_fault; now := "2024-05-01T02:00:00";
     requests := 0; io_ops := 0; files := files; trace := [] |}.


(** An updater as [DomainUpdater()] builds it, and a source that answers
    with one domain. *)
Definition updater0 : DomainUpdater :=
  {| domains_path := "/srv/domains"; max_retries := 3; timeout := 30 |}.

Definition newline : string := String "010" "".

(** A network where [good] answers [text] and every other URL fails. *)
Definition one_good_source (good text : string) : nat → string → outcome string :=
  λ _ url, if String.eqb url good then Return text
           else Raise (RequestException "HTTPError: 404").

(** The query log gives no record for the window that starts at
    [start]: the store is unavailable, or no row is that recent. *)
Definition no_data (start : Z) (self : LogParser) : Prop :=
  match db self with
  | DbQueries rows => ∀ r, r ∈ rows → timestamp r < start
  | _ => True
  end.

(** The window of [days] days starts at the time [t], in seconds since
    the epoch. *)
Definition window_starts (host : Host) (days t : Z) : Prop :=
  ∃ d, start_time host days = Return d ∧ local_timestamp host d = Return t.

(** The records of the window that starts at [t], newest first. *)
Definition window_of (t : Z) (rows : list QueryRecord) : list QueryRecord :=
  order_by_timestamp_desc (filter (λ r, t ≤ timestamp r) rows).

(** The times that pandas holds in nanoseconds on 64 bits, as its
    versions 1 and 2 do: those within 9223372036 seconds of the epoch. *)
Definition datetime64_ns (t : Z) : bool := (-9223372036 <=? t) && (t <=? 9223372036).

(** A host for the examples: on UTC, on 2024-05-01 at 02:00:00, with
    pandas holding nanoseconds.  Its [re_host] answers for the two
    patterns of the examples that are not interpreted here: [tv|router],
    an alternation, and [[], which is not an expression. *)
Definition utc_host : Host :=
  {| now_local := (739006 * 86400 + 7200) * 1000000;
     local_timestamp := λ d, Return ((d - 719162) * 86400);
     to_datetime_ok := datetime64_ns;
     re_host := λ pat,
       if String.eqb pat "tv|router"
       then Some (λ s, PyStr.contains (PyStr.lower s) "tv"
                       || PyStr.contains (PyStr.lower s) "router")
       else None |}.

(** The number of rows whose status code is not 2, row by row. *)
Fixpoint count_not_allowed (df : list LogRow) : Z :=
  match df with
  | [] => 0
  | row :: rest =>
      (if decide (status (query row) = 2) then 0 else 1) + count_not_allowed rest
  end.

(** A row with the given client and status. *)
Definition query_from (client : string) (status : Z) : QueryRecord :=
  {| client := client; domain := "example.com"; timestamp := 1714528800; status := status |}.

(** A parser over the given store, with the device map of config.py and
    one category. *)
Definition parser_over (d : Database) : LogParser :=
  {| db := d;
     categories := [("ads", {["example.com"]})];
     device_map := list_to_map [("192.168.1.10", "Dad-Laptop"); ("192.168.1.11", "Kid-Tablet");
                                ("192.168.1.12", "TV"); ("192.168.1.1", "Router")] |}.

(** A pattern with none of the special characters of [re]. *)
Fixpoint plain (pat : string) : bool :=
  match pat with
  | EmptyString => true
  | String c pat' => negb (re_special c) && plain pat'
  end.

(** [needle] occurs in [s] when case is ignored. *)
Definition contains_ignoring_case (s needle : string) : Prop :=
  ∃ before after, PyStr.lower s = before +:+ PyStr.lower needle +:+ after.

(** The same parser over another store. *)
Definition with_db (self : LogParser) (d : Database) : LogParser :=
  {| db := d; categories := categories self; device_map := device_map self |}.

(** The device name that [parse_logs] resolves for a record. *)
Definition device_of (self : LogParser) (r : QueryRecord) : string :=
  Device (process_row self r).

(** The character [c] occurs in [s]. *)
Fixpoint mentions (s : string) (c : ascii) : Prop :=
  match s with
  | EmptyString => False
  | String x s' => c = x ∨ mentions s' c
  end.

(** A string that fills exactly one line of a text file: it is not empty
    and holds no line boundary. *)
Definition one_line (d : string) : Prop :=
  d ≠ "" ∧ ∀ c, mentions d c → PyStr.is_linebreak c = false.

(** The seconds slept over some events. *)
Definition total_sleep (evs : list Event) : Z := foldr Z.add 0 (sleeps_of evs).

(** A source whose first answer is an error that is not a
    [RequestException]. *)
Definition broken_source : nat → string → outcome string :=
  λ _ _, Raise (OtherException "UnicodeDecodeError").

(** The same parser with the domain [d] taken out of every category. *)
Definition without_domain (d : string) (self : LogParser) : LogParser :=
  {| db := db self;
     categories := (λ cd : string * gset string, (cd.1, cd.2 ∖ {[d]})) <$> categories self;
     device_map := device_map self |}.

(** A string that starts with no white space. *)
Definition starts_clean (s : string) : Prop :=
  match s with
  | EmptyString => True
  | String c _ => PyStr.isspace c = false
  end.

(** A string with no white space in it. *)
Definition space_free (s : string) : Prop :=
  ∀ c, mentions s c → PyStr.isspace c = false.


(** The categories of [items] are updated in turn, starting in the world
    [w]: [oks] gives each category, in that order, with what its
    [download_category] returned in the world that the categories before
    it had left, and [w'] is the world after the last of them. *)
Inductive category_runs (self : DomainUpdater)
  : list (string * list string) → World → list (string * bool) → World → Prop :=
  | category_runs_nil w : category_runs self [] w [] w
  | category_runs_cons category urls items w ok w1 oks w' :
      download_category self category urls w = (Return ok, w1) →
      category_runs self items w1 oks w' →
      category_runs self ((category, urls) :: items) w ((category, ok) :: oks) w'.

(** The number of categories that succeeded. *)
Definition successes (oks : list (string * bool)) : Z :=
  Z.of_nat (length (filter (λ co, co.2 = true) oks)).

(* ===================================================================== *)
(** ** Facts about the string methods *)
(* ===================================================================== *)

Lemma append_nil_r (s : string) : s +:+ "" = s.
Proof. induction s as [|c s IH]; simpl; [done | by rewrite IH]. Qed.

Lemma append_assoc (s1 s2 s3 : string) : (s1 +:+ s2) +:+ s3 = s1 +:+ (s2 +:+ s3).
Proof. induction s1 as [|c s1 IH]; simpl; [done | by rewrite IH]. Qed.

Lemma endswith_nil (suffix : string) :
  PyStr.endswith "" suffix = String.eqb "" suffix || false.
Proof. reflexivity. Qed.

Lemma endswith_cons (c : ascii) (s suffix : string) :
  PyStr.endswith (String c s) suffix
  = String.eqb (String c s) suffix || PyStr.endswith s suffix.
Proof. reflexivity. Qed.

Lemma endswith_spec (s suffix : string) :
  PyStr.endswith s suffix = true ↔ ∃ p, s = p +:+ suffix.
Proof.
  induction s as [|c s IH].
  - rewrite endswith_nil, orb_false_r, String.eqb_eq. split.
    + intros <-. by exists "".
    + intros [[|c p] Hp]; simpl in Hp; [done | discriminate].
  - rewrite endswith_cons, orb_true_iff, String.eqb_eq, IH. split.
    + intros [<- | [p ->]]; [by exists "" | by exists (String c p)].
    + intros [[|c' p] Hp]; simpl in Hp; [by left | right].
      injection Hp as _ ->. by exists p.
Qed.

Example lower_example : PyStr.lower "Foo.COM" = "foo.com".
Proof. reflexivity. Qed.

Example strip_example : PyStr.strip "  a b.com " = "a b.com".
Proof. reflexivity. Qed.

Example splitlines_example :
  PyStr.splitlines (String "a" (String "013" (String "010" (String "b"
    (String "010" (String "010" (String "c" (String "010" "")))))))) =
  ["a"; "b"; ""; "c"].
Proof. reflexivity. Qed.

Example split_example :
  PyStr.split " 0.0.0.0  ads.example.com " = ["0.0.0.0"; "ads.example.com"].
Proof. reflexivity. Qed.

Example endswith_example :
  PyStr.endswith "cdn.ads.example.com" ".example.com" = true
  ∧ PyStr.endswith "badexample.com" ".example.com" = false.
Proof. split; reflexivity. Qed.

(* ===================================================================== *)
(** ** Classification *)
(* ===================================================================== *)

Lemma scan_domains_spec (x : string) (ds : list string) :
  scan_domains x ds = true ↔ ∃ d, d ∈ ds ∧ subdomain_or_equal x d.
Proof.
  induction ds as [|d ds IH].
  - split; [done | intros (d & Hd & _); by apply elem_of_nil in Hd].
  - change (scan_domains x (d :: ds))
      with (if PyStr.endswith x ("." +:+ d) || String.eqb x d
            then true else scan_domains x ds).
    destruct (PyStr.endswith x ("." +:+ d) || String.eqb x d) eqn:Hhit.
    + split; [intros _ | done]. exists d. split; [apply elem_of_cons; by left |].
      apply orb_true_iff in Hhit as [Hend | Heq].
      * right. by apply endswith_spec in Hend.
      * left. by apply String.eqb_eq.
    + apply orb_false_iff in Hhit as [Hend Heq].
      rewrite IH. split.
      * intros (d' & Hd' & Hsub). exists d'. split; [apply elem_of_cons; by right | done].
      * intros (d' & Hd' & Hsub). apply elem_of_cons in Hd' as [-> | Hd'].
        -- exfalso. destruct Hsub as [-> | Hsuffix].
           ++ by rewrite String.eqb_refl in Heq.
           ++ apply endswith_spec in Hsuffix. simpl in *. congruence.
        -- by exists d'.
Qed.

Lemma category_hit_spec (x : string) (domains : gset string) :
  bool_decide (x ∈ domains) || scan_domains x (elements domains) = true
  ↔ domain_matches x domains.
Proof.
  rewrite orb_true_iff, bool_decide_eq_true, scan_domains_spec.
  unfold domain_matches. by setoid_rewrite elem_of_elements.
Qed.

Lemma categorize_loop_spec (x : string) (items : list (string * gset string)) :
  (∃ before category domains after,
      items = before ++ (category, domains) :: after
      ∧ Forall (λ cd, ¬ domain_matches x cd.2) before
      ∧ domain_matches x domains
      ∧ categorize_loop x items = category)
  ∨ (Forall (λ cd, ¬ domain_matches x cd.2) items
     ∧ categorize_loop x items = "uncategorized").
Proof.
  induction items as [|[category domains] items IH]; simpl.
  - right. by split.
  - pose proof (category_hit_spec x domains) as Hspec.
    destruct (bool_decide (x ∈ domains)) eqn:Hmem; simpl in Hspec.
    { left. exists [], category, domains, items. split_and!; [done | done | | done].
      by apply Hspec. }
    destruct (scan_domains x (elements domains)) eqn:Hscan.
    { left. exists [], category, domains, items. split_and!; [done | done | | done].
      by apply Hspec. }
    assert (¬ domain_matches x domains) as Hno.
    { intros Hm. apply Hspec in Hm. discriminate. }
    destruct IH as [(before & c & ds & after & -> & Hbefore & Hds & Hres) | [Hall Hres]].
    + left. exists ((category, domains) :: before), c, ds, after.
      split_and!; [done | by constructor | done | done].
    + right. split; [by constructor | done].
Qed.

(** C1.  [categorize_domain] lowercases and trims its input, scans the
    categories in the order they were loaded, and returns the first
    category whose domain set holds the input itself or a domain that
    the input equals or is a strict subdomain of; when no category
    matches it returns "uncategorized". *)
Theorem categorize_domain_first_match (self : LogParser) (input : string) :
  let x := PyStr.strip (PyStr.lower input) in
  (∃ before category domains after,
      categories self = before ++ (category, domains) :: after
      ∧ Forall (λ cd, ¬ domain_matches x cd.2) before
      ∧ domain_matches x domains
      ∧ categorize_domain self input = category)
  ∨ (Forall (λ cd, ¬ domain_matches x cd.2) (categories self)
     ∧ categorize_domain self input = "uncategorized").
Proof. apply categorize_loop_spec. Qed.

Example categorize_examples :
  let self := {| db := DbMissing;
                 categories := [("ads", {["example.com"; "ads.net"]});
                                ("social", {["example.com"; "chat.org"]})];
                 device_map := ∅ |} in
  categorize_domain self " CDN.Example.COM " = "ads"
  ∧ categorize_domain self "chat.org" = "social"
  ∧ categorize_domain self "notexample.com" = "uncategorized".
Proof. vm_compute. done. Qed.

(* ===================================================================== *)
(** ** download_with_retry *)
(* ===================================================================== *)

Lemma advance_advance (w : World) (n m : nat) (e f : list Event) :
  advance (advance w n e) m f = advance w (n + m) (e ++ f).
Proof. unfold advance; simpl. f_equal; [lia | by rewrite app_assoc]. Qed.

Lemma retry_loop_ok (url : string) (retries attempt : Z) (rem : nat) (w : World)
    (text : string) :
  net w (requests w) url = Return text →
  retry_loop url retries (S rem) attempt w
  = (Return (Some text), advance w 1 [EvGet url]).
Proof.
  intros Hnet. cbn [retry_loop]. unfold bind, try, session_get. by rewrite Hnet.
Qed.

Lemma retry_loop_last (url : string) (retries attempt : Z) (rem : nat) (w : World)
    (msg : string) :
  net w (requests w) url = Raise (RequestException msg) →
  retries - 1 ≤ attempt →
  retry_loop url retries (S rem) attempt w
  = (Raise (RequestException msg), advance w 1 [EvGet url]).
Proof.
  intros Hnet Hlast. cbn [retry_loop]. unfold bind, try, session_get. rewrite Hnet.
  by rewrite (proj2 (Z.ltb_ge _ _) Hlast).
Qed.

Lemma retry_loop_again (url : string) (retries attempt : Z) (rem : nat) (w : World)
    (msg : string) :
  net w (requests w) url = Raise (RequestException msg) →
  attempt < retries - 1 →
  retry_loop url retries (S rem) attempt w
  = retry_loop url retries rem (attempt + 1)
      (advance w 1 [EvGet url; EvSleep (2 ^ attempt)]).
Proof.
  intros Hnet Hmore. cbn [retry_loop]. unfold bind at 1, try, session_get. rewrite Hnet.
  rewrite (proj2 (Z.ltb_lt _ _) Hmore). unfold bind, sleep, advance. simpl.
  by rewrite <- app_assoc.
Qed.

Lemma failed_attempts_S (url : string) (first k : nat) :
  failed_attempts url first (S k)
  = [EvGet url; EvSleep (2 ^ Z.of_nat first)] ++ failed_attempts url (S first) k.
Proof. reflexivity. Qed.



Lemma gets_of_failed_attempts (url : string) (first k : nat) :
  gets_of (failed_attempts url first k) = replicate k url.
Proof.
  unfold failed_attempts. revert first.
  induction k as [|k IH]; intros first; simpl; [done | by rewrite IH].
Qed.

Lemma sleeps_of_failed_attempts (url : string) (first k : nat) :
  sleeps_of (failed_attempts url first k) = (λ i : nat, 2 ^ Z.of_nat i) <$> seq first k.
Proof.
  unfold failed_attempts. revert first.
  induction k as [|k IH]; intros first; simpl; [done | by rewrite IH].
Qed.

Lemma gets_of_attempt_trace (url : string) (k : nat) :
  gets_of (attempt_trace url k) = replicate (S k) url.
Proof.
  unfold attempt_trace, gets_of. rewrite omap_app. fold (gets_of (failed_attempts url 0 k)).
  rewrite gets_of_failed_attempts. simpl.
  change [url] with (replicate 1 url). rewrite <- replicate_add.
  by rewrite Nat.add_1_r.
Qed.


Example attempt_trace_three :
  attempt_trace "u" 2 = [EvGet "u"; EvSleep 1; EvGet "u"; EvSleep 2; EvGet "u"].
Proof. reflexivity. Qed.

(** C10.  With [retries] zero or negative (passed, or taken from
    [max_retries]) the attempt loop never runs: [download_with_retry]
    sends no request, raises nothing and returns [None], leaving the
    world as it was. *)
Theorem download_with_retry_no_attempts (self : DomainUpdater) (url : string)
    (retries : option Z) (w : World) :
  default (max_retries self) retries ≤ 0 →
  download_with_retry self url retries w = (Return None, w).
Proof.
  intros Hle. unfold download_with_retry.
  by rewrite (Z2Nat.nonpos _ Hle).
Qed.


(* ===================================================================== *)
(** ** What each phase of an update leaves alone *)
(* ===================================================================== *)

Lemma disk_untouched_refl (w : World) : disk_untouched w w.
Proof. by repeat split. Qed.

Lemma disk_untouched_trans (w1 w2 w3 : World) :
  disk_untouched w1 w2 → disk_untouched w2 w3 → disk_untouched w1 w3.
Proof.
  intros ((? & ? & ?) & ? & ?) ((? & ? & ?) & ? & ?).
  repeat split; congruence.
Qed.

Lemma disk_untouched_advance (w : World) (n : nat) (evs : list Event) :
  disk_untouched w (advance w n evs).
Proof. by repeat split. Qed.

Lemma retry_loop_disk_untouched (url : string) (retries : Z) (rem : nat) (attempt : Z)
    (w : World) :
  disk_untouched w (retry_loop url retries rem attempt w).2.
Proof.
  revert attempt w. induction rem as [|rem IH]; intros attempt w.
  - apply disk_untouched_refl.
  - destruct (net w (requests w) url) as [text | e] eqn:Hnet.
    + rewrite (retry_loop_ok _ _ _ _ _ _ Hnet). apply disk_untouched_advance.
    + cbn [retry_loop]. unfold bind at 1, try, session_get. rewrite Hnet.
      destruct e as [msg | | | | |]; try (by repeat split).
      destruct (attempt <? retries - 1) eqn:Hmore; [| by repeat split].
      unfold bind, sleep.
      match goal with |- disk_untouched _ (retry_loop _ _ _ _ ?w1).2 =>
        apply (disk_untouched_trans w w1); [by repeat split | apply IH] end.
Qed.

Lemma fetch_and_normalize_disk_untouched (self : DomainUpdater) (url : string) (w : World) :
  disk_untouched w (fetch_and_normalize self url w).2.
Proof.
  unfold fetch_and_normalize, download_with_retry, bind.
  pose proof (retry_loop_disk_untouched url (default (max_retries self) None)
    (Z.to_nat (default (max_retries self) None)) 0 w) as H.
  destruct (retry_loop _ _ _ _ w) as [[[text |] | e] w1]; simpl in *; done.
Qed.

Lemma url_loop_returns (self : DomainUpdater) (urls : list string) (acc : gset string)
    (w : World) :
  ∃ all_domains success w',
    url_loop self urls acc w = (Return (all_domains, success), w')
    ∧ disk_untouched w w'.
Proof.
  revert w. induction urls as [|url urls IH]; intros w.
  - exists acc, false, w. split; [done | apply disk_untouched_refl].
  - cbn [url_loop]. unfold bind, try.
    pose proof (fetch_and_normalize_disk_untouched self url w) as Hdisk.
    destruct (fetch_and_normalize self url w) as [[domains | e] w1]; simpl in Hdisk.
    + by exists (acc ∪ domains), true, w1.
    + destruct (IH w1) as (ds & b & w' & -> & Hdisk').
      exists ds, b, w'. split; [done |]. by apply (disk_untouched_trans w w1).
Qed.

Lemma url_loop_all_fail (self : DomainUpdater) (urls : list string) (acc : gset string)
    (w w' : World) :
  all_fail self urls w w' → url_loop self urls acc w = (Return (acc, false), w').
Proof.
  induction 1 as [w | url urls w e w1 w2 Hfail _ IH]; [done |].
  cbn [url_loop]. unfold bind, try. by rewrite Hfail.
Qed.

Lemma url_loop_first_success (self : DomainUpdater) (before : list string) (url : string)
    (after : list string) (acc domains : gset string) (w w0 w1 : World) :
  all_fail self before w w0 →
  fetch_and_normalize self url w0 = (Return domains, w1) →
  url_loop self (before ++ url :: after) acc w = (Return (acc ∪ domains, true), w1).
Proof.
  intros Hbefore Hok.
  induction Hbefore as [w | u urls w e wa wb Hfail _ IH].
  - cbn [app url_loop]. unfold bind, try. by rewrite Hok.
  - cbn [app url_loop]. unfold bind, try. rewrite Hfail. by apply IH.
Qed.

(** The loop over the URLs ends in one of two ways: every URL failed, or
    the URLs before some URL failed and that URL gave the set adopted. *)
Lemma url_loop_cases (self : DomainUpdater) (urls : list string) (acc : gset string)
    (w : World) :
  (∃ w', all_fail self urls w w'
         ∧ url_loop self urls acc w = (Return (acc, false), w'))
  ∨ (∃ before url after domains w0 w1,
        urls = before ++ url :: after
        ∧ all_fail self before w w0
        ∧ fetch_and_normalize self url w0 = (Return domains, w1)
        ∧ url_loop self urls acc w = (Return (acc ∪ domains, true), w1)).
Proof.
  revert w. induction urls as [|url urls IH]; intros w.
  - left. exists w. split; [constructor | done].
  - destruct (fetch_and_normalize self url w) as [[domains | e] w1] eqn:Hfetch.
    + right. exists [], url, urls, domains, w, w1.
      split_and!; [done | constructor | done |].
      cbn [url_loop]. unfold bind, try. by rewrite Hfetch.
    + destruct (IH w1) as [(w' & Hall & Hloop)
        | (before & u & after & domains & w0 & w2 & -> & Hall & Hok & Hloop)].
      * left. exists w'. split; [by econstructor |].
        cbn [url_loop]. unfold bind, try. by rewrite Hfetch.
      * right. exists (url :: before), u, after, domains, w0, w2.
        split_and!; [done | by econstructor | done |].
        cbn [app url_loop]. unfold bind, try. by rewrite Hfetch.
Qed.

Lemma fs_op_ok (change : gmap string FileContent → gmap string FileContent) (w : World) :
  disk_fault w (io_ops w) = false →
  fs_op change w
  = (Return tt,
     {| net := net w; disk_fault := disk_fault w; now := now w;
        requests := requests w; io_ops := S (io_ops w);
        files := change (files w);
        trace := trace w ++ [EvDisk (change (files w))] |}).
Proof. intros H. unfold fs_op. by rewrite H. Qed.

Lemma fs_op_fault (change : gmap string FileContent → gmap string FileContent) (w : World) :
  disk_fault w (io_ops w) = true →
  ∃ w', fs_op change w = (Raise (OSError "Errno"), w')
        ∧ files w' = files w ∧ trace w' = trace w ∧ io_ops w' = S (io_ops w)
        ∧ same_oracles w w'.
Proof. intros H. unfold fs_op. rewrite H. eexists. by repeat split. Qed.

Lemma net_untouched_refl (w : World) : net_untouched w w.
Proof. by repeat split. Qed.

Lemma net_untouched_trans (w1 w2 w3 : World) :
  net_untouched w1 w2 → net_untouched w2 w3 → net_untouched w1 w3.
Proof.
  intros ((? & ? & ?) & ? & ?) ((? & ? & ?) & ? & ?).
  repeat split; congruence.
Qed.

Lemma fs_op_net_untouched (change : gmap string FileContent → gmap string FileContent)
    (w : World) :
  net_untouched w (fs_op change w).2.
Proof.
  unfold fs_op. destruct (disk_fault w (io_ops w)); repeat split; simpl.
  unfold gets_of. rewrite omap_app. simpl. by rewrite app_nil_r.
Qed.

Lemma bind_net_untouched {A B} (m : M A) (k : A → M B) (w : World) :
  net_untouched w (m w).2 →
  (∀ a w1, net_untouched w1 (k a w1).2) →
  net_untouched w (bind m k w).2.
Proof.
  intros Hm Hk. unfold bind. destruct (m w) as [[a | e] w1]; simpl in *; [| done].
  by apply (net_untouched_trans w w1), Hk.
Qed.

Lemma write_lines_net_untouched (path : string) (lines : list string) (w : World) :
  net_untouched w (write_lines path lines w).2.
Proof.
  revert w. induction lines as [|line lines IH]; intros w.
  - apply net_untouched_refl.
  - cbn [write_lines]. apply bind_net_untouched; [apply fs_op_net_untouched | auto].
Qed.

Lemma save_domains_net_untouched (self : DomainUpdater) (category : string)
    (domains : gset string) (w : World) :
  net_untouched w (save_domains self category domains w).2.
Proof.
  unfold save_domains.
  pose proof (bind_net_untouched (open_w (category_file self category))
    (λ _, write_lines (category_file self category) (sorted domains)) w
    (fs_op_net_untouched _ w) (λ _ w1, write_lines_net_untouched _ _ w1)) as H.
  unfold bind at 1, try.
  destruct (bind _ _ w) as [[[] | e] w1]; done.
Qed.

Lemma file_text_cons (line : string) (lines : list string) :
  file_text (line :: lines) = line +:+ String "010" (file_text lines).
Proof. reflexivity. Qed.

Lemma write_lines_ok (path : string) (lines : list string) (old : string) (w w' : World) :
  files w !! path = Some (Text old) →
  write_lines path lines w = (Return tt, w') →
  files w' = <[path := Text (old +:+ file_text lines)]> (files w).
Proof.
  revert old w. induction lines as [|line lines IH]; intros old w Hold Hrun.
  - injection Hrun as <-. simpl. rewrite append_nil_r. by rewrite insert_id.
  - cbn [write_lines] in Hrun. unfold bind, write in Hrun.
    destruct (disk_fault w (io_ops w)) eqn:Hfault.
    + destruct (fs_op_fault (λ fs, match fs !! path with
        | Some (Text old) => <[path := Text (old +:+ (line +:+ String "010" ""))]> fs
        | _ => <[path := Text (line +:+ String "010" "")]> fs end) w Hfault)
        as (w1 & Hop & _). rewrite Hop in Hrun. discriminate.
    + rewrite fs_op_ok in Hrun by done. rewrite Hold in Hrun.
      apply (IH (old +:+ (line +:+ String "010" ""))) in Hrun; simpl.
      * rewrite Hrun. simpl. rewrite insert_insert_eq. do 2 f_equal.
        rewrite !append_assoc. reflexivity.
      * by rewrite lookup_insert_eq.
Qed.

Lemma save_domains_eq (self : DomainUpdater) (category : string) (domains : gset string)
    (w : World) :
  save_domains self category domains w
  = match (open_w (category_file self category) ;;
           write_lines (category_file self category) (sorted domains)) w with
    | (Return _, w') => (Return true, w')
    | (Raise _, w') => (Return false, w')
    end.
Proof.
  unfold save_domains, bind at 1, try.
  by destruct (bind _ _ w) as [[[] | e] w1].
Qed.

Lemma write_lines_keeps_trace (path : string) (lines : list string) (ev : Event)
    (w : World) :
  ev ∈ trace w → ev ∈ trace (write_lines path lines w).2.
Proof.
  revert w. induction lines as [|line lines IH]; intros w Hin; [done |].
  cbn [write_lines]. unfold bind, write, fs_op.
  destruct (disk_fault w (io_ops w)); simpl; [done |].
  apply IH. simpl. apply elem_of_app. by left.
Qed.

(** The three ways [save_domains] ends: the open fails and the files are
    as before; the open succeeds, the cut-down file is there to be seen,
    and a later write fails; or every write succeeds and the file holds
    the sorted domains, one to a line. *)
Lemma save_domains_cases (self : DomainUpdater) (category : string)
    (domains : gset string) (w : World) :
  let path := category_file self category in
  (disk_fault w (io_ops w) = true
   ∧ ∃ w', save_domains self category domains w = (Return false, w')
           ∧ files w' = files w)
  ∨ (disk_fault w (io_ops w) = false
     ∧ ∃ w', EvDisk (<[path := Text ""]> (files w)) ∈ trace w'
        ∧ (save_domains self category domains w = (Return false, w')
           ∨ (save_domains self category domains w = (Return true, w')
              ∧ files w' = <[path := Text (file_text (sorted domains))]> (files w)))).
Proof.
  intros path. rewrite save_domains_eq. fold path.
  destruct (disk_fault w (io_ops w)) eqn:Hfault.
  - left. split; [done |]. unfold bind, open_w.
    destruct (fs_op_fault (<[path := Text ""]>) w Hfault) as (w1 & -> & Hfiles & _).
    by exists w1.
  - right. split; [done |]. unfold bind, open_w. rewrite fs_op_ok by done.
    set (w1 := {| net := net w; disk_fault := _; now := _; requests := _;
                  io_ops := _; files := _; trace := _ |}).
    assert (EvDisk (<[path := Text ""]> (files w)) ∈ trace w1) as Hin.
    { unfold w1; simpl. apply elem_of_app. right. by apply list_elem_of_singleton. }
    pose proof (write_lines_keeps_trace path (sorted domains) _ w1 Hin) as Hseen.
    pose proof (write_lines_ok path (sorted domains) "" w1) as Hok.
    destruct (write_lines path (sorted domains) w1) as [[[] | e] w2] eqn:Hrun.
    + exists w2. split; [done |]. right. split; [done |].
      rewrite (Hok w2); [| by unfold w1; simpl; rewrite lookup_insert_eq | done].
      unfold w1; simpl. by rewrite insert_insert_eq.
    + exists w2. split; [done | by left].
Qed.

(* ===================================================================== *)
(** ** download_category *)
(* ===================================================================== *)

Lemma download_category_eq (self : DomainUpdater) (category : string) (urls : list string)
    (w : World) :
  download_category self category urls w
  = match url_loop self urls ∅ w with
    | (Return (all_domains, true), w1) => save_domains self category all_domains w1
    | (Return (_, false), w1) => (Return false, w1)
    | (Raise e, w1) => (Raise e, w1)
    end.
Proof.
  unfold download_category, bind.
  by destruct (url_loop self urls ∅ w) as [[[ds []] | e] w1].
Qed.

Lemma fetch_and_normalize_ok (self : DomainUpdater) (url text : string) (w w1 : World) :
  download_with_retry self url None w = (Return (Some text), w1) →
  fetch_and_normalize self url w = (Return (process_hosts_file text), w1).
Proof. intros H. unfold fetch_and_normalize, bind. by rewrite H. Qed.

Lemma fetch_and_normalize_inv (self : DomainUpdater) (url : string) (domains : gset string)
    (w w1 : World) :
  fetch_and_normalize self url w = (Return domains, w1) →
  ∃ text, download_with_retry self url None w = (Return (Some text), w1)
          ∧ domains = process_hosts_file text.
Proof.
  unfold fetch_and_normalize, bind.
  destruct (download_with_retry self url None w) as [[[text |] | e] w'];
    simpl; intros H; try discriminate.
  injection H as <- <-. by exists text.
Qed.

Lemma download_category_after_first_success (self : DomainUpdater) (category : string)
    (before : list string) (url : string) (after : list string) (text : string)
    (w w0 w1 : World) :
  all_fail self before w w0 →
  download_with_retry self url None w0 = (Return (Some text), w1) →
  url_loop self (before ++ url :: after) ∅ w
  = (Return (process_hosts_file text, true), w1)
  ∧ download_category self category (before ++ url :: after) w
    = save_domains self category (process_hosts_file text) w1
  ∧ net_untouched w1 (save_domains self category (process_hosts_file text) w1).2
  ∧ (∀ w2, download_category self category (before ++ url :: after) w
           = (Return true, w2) →
           files w2 = <[category_file self category :=
                          Text (file_text (sorted (process_hosts_file text)))]>
                        (files w)).
Proof.
  intros Hfail Hok.
  pose proof (url_loop_first_success self before url after ∅ _ w w0 w1 Hfail
                (fetch_and_normalize_ok _ _ _ _ _ Hok)) as Hloop.
  rewrite (left_id_L ∅ (∪)) in Hloop.
  assert (download_category self category (before ++ url :: after) w
          = save_domains self category (process_hosts_file text) w1) as Hcat.
  { by rewrite download_category_eq, Hloop. }
  split_and!; [done | done | apply save_domains_net_untouched |].
  intros w2 Hrun. rewrite Hcat in Hrun.
  destruct (url_loop_returns self (before ++ url :: after) ∅ w)
    as (ds & b & w' & Hloop' & (_ & Hfiles & _)).
  rewrite Hloop in Hloop'. injection Hloop' as <- <- <-.
  destruct (save_domains_cases self category (process_hosts_file text) w1)
    as [(_ & w3 & Hsave & _) | (_ & w3 & _ & [Hsave | [Hsave Hw3]])];
    rewrite Hsave in Hrun; try discriminate.
  injection Hrun as <-. by rewrite Hw3, Hfiles.
Qed.

(** C6.  [download_category] adopts the normalized domain set of the
    first URL whose fetch and normalization succeed: the URLs after it
    are never requested, the set is that URL's alone, and it is what a
    successful save writes.  With no URL at all the update fails. *)
Theorem download_category_first_success (self : DomainUpdater) (category : string) :
  (∀ w, download_category self category [] w = (Return false, w))
  ∧ (∀ before url after text w w0 w1,
        all_fail self before w w0 →
        download_with_retry self url None w0 = (Return (Some text), w1) →
        url_loop self (before ++ url :: after) ∅ w
        = (Return (process_hosts_file text, true), w1)
        ∧ download_category self category (before ++ url :: after) w
          = save_domains self category (process_hosts_file text) w1
        ∧ net_untouched w1 (save_domains self category (process_hosts_file text) w1).2
        ∧ (∀ w2, download_category self category (before ++ url :: after) w
                 = (Return true, w2) →
                 files w2 = <[category_file self category :=
                                Text (file_text (sorted (process_hosts_file text)))]>
                              (files w))).
Proof.
  split; [done |]. intros before url after text w w0 w1 Hfail Hok.
  by apply (download_category_after_first_success _ _ _ _ _ _ w w0 w1).
Qed.






(* ===================================================================== *)
(** ** update_all_lists *)
(* ===================================================================== *)

Lemma same_oracles_trans (w1 w2 w3 : World) :
  same_oracles w1 w2 → same_oracles w2 w3 → same_oracles w1 w3.
Proof. intros (? & ? & ?) (? & ? & ?). repeat split; congruence. Qed.

Lemma download_category_returns (self : DomainUpdater) (category : string)
    (urls : list string) (w : World) :
  ∃ ok w', download_category self category urls w = (Return ok, w') ∧ same_oracles w w'.
Proof.
  rewrite download_category_eq.
  destruct (url_loop_returns self urls ∅ w) as (ds & b & w1 & -> & (Hsame & _)).
  destruct b; [| by exists false, w1].
  pose proof (save_domains_net_untouched self category ds w1) as (Hsame' & _).
  destruct (save_domains_cases self category ds w1)
    as [(_ & w2 & Hsave & _) | (_ & w2 & _ & [Hsave | [Hsave _]])];
    rewrite Hsave in *; simpl in Hsame'; eexists _, w2;
    (split; [done | by apply (same_oracles_trans w w1)]).
Qed.

Lemma category_loop_returns (self : DomainUpdater) (items : list (string * list string))
    (results : gmap string bool) (w : World) :
  ∃ results' w',
    category_loop self items results w = (Return results', w')
    ∧ same_oracles w w'
    ∧ dom results' = dom results ∪ list_to_set items.*1
    ∧ (∀ c ok, results' !! c = Some ok →
         results !! c = Some ok
         ∨ ∃ urls w1 w2, (c, urls) ∈ items
                         ∧ download_category self c urls w1 = (Return ok, w2)).
Proof.
  revert results w. induction items as [|[category urls] items IH]; intros results w.
  - exists results, w. split_and!; [done | done | set_solver | auto].
  - cbn [category_loop]. unfold bind.
    destruct (download_category_returns self category urls w) as (ok & w1 & Hrun & Hsame).
    rewrite Hrun.
    destruct (IH (<[category := ok]> results) w1) as (results' & w' & -> & Hsame' & Hdom & Hwhy).
    exists results', w'. split_and!; [done | by apply (same_oracles_trans w w1) | |].
    + rewrite Hdom, dom_insert_L. set_solver.
    + intros c b Hc. destruct (Hwhy c b Hc) as [Hins | (us & wa & wb & Hin & Hdl)].
      * destruct (decide (category = c)) as [-> | Hne].
        -- rewrite lookup_insert_eq in Hins. injection Hins as <-.
           right. exists urls, w, w1. split; [apply elem_of_cons; by left | done].
        -- rewrite lookup_insert_ne in Hins by done. by left.
      * right. exists us, wa, wb. split; [apply elem_of_cons; by right | done].
Qed.

Lemma sum_bools_nonneg (l : list bool) : 0 ≤ foldr (λ b acc, Z.b2z b + acc) 0 l.
Proof. induction l as [|[] l IH]; simpl; lia. Qed.

Lemma sum_bools_zero (l : list bool) :
  foldr (λ b acc, Z.b2z b + acc) 0 l = 0 ↔ Forall (λ b, b = false) l.
Proof.
  induction l as [|b l IH]; [by split |].
  pose proof (sum_bools_nonneg l). cbn [foldr]. rewrite Forall_cons, <- IH.
  destruct b; simpl; split; try lia; intros []; done.
Qed.

Lemma sum_values_zero (results : gmap string bool) :
  sum_values results = 0 ↔ ∀ c, results !! c ≠ Some true.
Proof.
  unfold sum_values. rewrite sum_bools_zero, Forall_forall. split.
  - intros Hall c Hc. apply elem_of_map_to_list in Hc.
    by pose proof (Hall true (list_elem_of_fmap_2 snd _ _ Hc)).
  - intros Hnone b Hb. apply list_elem_of_fmap_1 in Hb as ([c b'] & -> & Hin).
    apply elem_of_map_to_list in Hin. simpl. destruct b'; [by destruct (Hnone c) | done].
Qed.

(** How [update_all_lists] runs: the three file-system operations outside
    any [try] either raise, or the call goes on. *)
Lemma update_all_lists_eq (self : DomainUpdater) (sources : list (string * list string))
    (w : World) :
  update_all_lists self sources w
  = match mkdir (domains_path self) w with
    | (Raise e, w1) => (Raise e, w1)
    | (Return _, w1) =>
        match category_loop self sources ∅ w1 with
        | (Raise e, w2) => (Raise e, w2)
        | (Return results, w2) =>
            match open_w (metadata_file self) w2 with
            | (Raise e, w3) => (Raise e, w3)
            | (Return _, w3) =>
                match json_dump (metadata_file self)
                        {| last_update := now w2; results := results;
                           total_categories := Z.of_nat (length sources);
                           successful_updates := sum_values results |} w3 with
                | (Raise e, w4) => (Raise e, w4)
                | (Return _, w4) => (Return (negb (sum_values results =? 0)), w4)
                end
            end
        end
    end.
Proof.
  unfold update_all_lists, bind, clock_isoformat.
  destruct (mkdir (domains_path self) w) as [[[] | e] w1]; [| done].
  destruct (category_loop self sources ∅ w1) as [[results | e] w2]; [| done].
  destruct (open_w (metadata_file self) w2) as [[[] | e] w3]; [| done].
  destruct (json_dump _ _ w3) as [[[] | e] w4]; [| done].
  by destruct (sum_values results =? 0).
Qed.

Lemma fs_op_cases (change : gmap string FileContent → gmap string FileContent) (w : World) :
  (disk_fault w (io_ops w) = true
   ∧ ∃ w', fs_op change w = (Raise (OSError "Errno"), w'))
  ∨ (disk_fault w (io_ops w) = false
     ∧ ∃ w', fs_op change w = (Return tt, w')
             ∧ files w' = change (files w) ∧ same_oracles w w').
Proof.
  unfold fs_op. destruct (disk_fault w (io_ops w)); [left | right];
    (split; [done |]); eexists; by repeat split.
Qed.

Lemma filter_none {A} (P : A → Prop) `{∀ x, Decision (P x)} (l : list A) :
  (∀ x, x ∈ l → ¬ P x) → filter P l = [].
Proof.
  induction l as [|x l IH]; intros Hno; [done |].
  rewrite filter_cons_False by (apply Hno, elem_of_cons; by left).
  apply IH. intros y Hy. apply Hno, elem_of_cons. by right.
Qed.

(** The loop over the categories always ends, and its result is the
    dict of what each category's update returned, in the order of the
    run. *)
Lemma category_loop_runs (self : DomainUpdater) (items : list (string * list string))
    (results : gmap string bool) (w : World) :
  ∃ oks w',
    category_runs self items w oks w'
    ∧ oks.*1 = items.*1
    ∧ same_oracles w w'
    ∧ category_loop self items results w
      = (Return (foldl (λ m co, <[co.1 := co.2]> m) results oks), w').
Proof.
  revert results w. induction items as [|[category urls] items IH]; intros results w.
  - exists [], w. split_and!; [constructor | done | done | done].
  - destruct (download_category_returns self category urls w) as (ok & w1 & Hrun & Hsame).
    destruct (IH (<[category := ok]> results) w1)
      as (oks & w' & Hruns & Hkeys & Hsame' & Hloop).
    exists ((category, ok) :: oks), w'. split_and!.
    + by econstructor.
    + by rewrite !fmap_cons, Hkeys.
    + by apply (same_oracles_trans w w1).
    + cbn [category_loop]. unfold bind. rewrite Hrun. exact Hloop.
Qed.

Lemma foldl_insert_list_to_map (oks : list (string * bool)) (m : gmap string bool) :
  NoDup oks.*1 →
  foldl (λ m co, <[co.1 := co.2]> m) m oks = list_to_map oks ∪ m.
Proof.
  revert m. induction oks as [|[c ok] oks IH]; intros m Hnodup.
  - simpl. by rewrite (left_id_L ∅ (∪)).
  - rewrite fmap_cons in Hnodup. apply NoDup_cons in Hnodup as [Hc Hnodup].
    cbn [foldl list_to_map foldr]. rewrite (IH _ Hnodup). simpl.
    rewrite <- insert_union_l. symmetry. apply insert_union_r.
    by apply not_elem_of_list_to_map_1.
Qed.

Lemma sum_bools_Permutation (l1 l2 : list bool) :
  l1 ≡ₚ l2 → foldr (λ b acc, Z.b2z b + acc) 0 l1 = foldr (λ b acc, Z.b2z b + acc) 0 l2.
Proof. induction 1; simpl; lia. Qed.

Lemma sum_bools_successes (oks : list (string * bool)) :
  foldr (λ b acc, Z.b2z b + acc) 0 oks.*2 = successes oks.
Proof.
  unfold successes. induction oks as [|[c ok] oks IH]; [done |].
  rewrite fmap_cons, filter_cons. cbn [foldr]. rewrite IH.
  destruct ok; simpl; lia.
Qed.

Lemma sum_values_list_to_map (oks : list (string * bool)) :
  NoDup oks.*1 → sum_values (list_to_map oks) = successes oks.
Proof.
  intros Hnodup. unfold sum_values. rewrite <- sum_bools_successes.
  apply sum_bools_Permutation. by rewrite (map_to_list_to_map oks Hnodup).
Qed.

Lemma successes_zero (oks : list (string * bool)) :
  successes oks = 0 ↔ ∀ c, (c, true) ∉ oks.
Proof.
  unfold successes. split.
  - intros Hzero c Hc.
    assert ((c, true) ∈ filter (λ co : string * bool, co.2 = true) oks) as Hin
      by (by apply list_elem_of_filter).
    destruct (filter _ oks); [by apply elem_of_nil in Hin | simpl in Hzero; lia].
  - intros Hnone. rewrite filter_none; [done |].
    intros [c ok] Hin Hok. simpl in Hok. subst ok. by apply (Hnone c).
Qed.

(** How [update_all_lists] runs once the directory is there: the
    categories are updated in turn, then the metadata file is opened and
    the record written, each of the two outside any [try]. *)
Lemma update_all_lists_after_mkdir (self : DomainUpdater)
    (sources : list (string * list string)) (w : World) :
  NoDup sources.*1 →
  disk_fault w (io_ops w) = false →
  ∃ oks w2,
    category_runs self sources (mkdir (domains_path self) w).2 oks w2
    ∧ oks.*1 = sources.*1
    ∧ same_oracles w w2
    ∧ update_all_lists self sources w
      = match open_w (metadata_file self) w2 with
        | (Raise e, w3) => (Raise e, w3)
        | (Return _, w3) =>
            match json_dump (metadata_file self)
                    {| last_update := now w; results := list_to_map oks;
                       total_categories := Z.of_nat (length sources);
                       successful_updates := successes oks |} w3 with
            | (Raise e, w4) => (Raise e, w4)
            | (Return _, w4) => (Return (negb (successes oks =? 0)), w4)
            end
        end.
Proof.
  intros Hnodup Hok. rewrite update_all_lists_eq. unfold mkdir.
  destruct (fs_op_cases id w) as [(Hf & _) | (_ & w1 & Hop & _ & Hs1)]; [congruence |].
  rewrite Hop. simpl.
  destruct (category_loop_runs self sources ∅ w1) as (oks & w2 & Hruns & Hkeys & Hs2 & Hloop).
  rewrite Hloop, foldl_insert_list_to_map, (right_id_L ∅ (∪)) by (by rewrite Hkeys).
  rewrite sum_values_list_to_map by (by rewrite Hkeys).
  pose proof (same_oracles_trans _ _ _ Hs1 Hs2) as Hs.
  destruct Hs as (Hnet & Hdisk & Hnow). rewrite Hnow.
  exists oks, w2. split_and!; [done | done | by repeat split | done].
Qed.

(** C4, as the code has it.  A run of [update_all_lists] ends in one of
    four ways.  When the directory cannot be made, when the metadata
    file cannot be opened, or when the record cannot be written, the
    call raises [OSError]: it returns no boolean and stores no record of
    the run.  Otherwise it returns, having stored the record of the run:
    its time, what each category's update returned, the number of
    categories and the number of successes; and it returns [false]
    exactly when no category succeeded. *)
Theorem update_all_lists_result (self : DomainUpdater)
    (CATEGORY_SOURCES : list (string * list string)) (w : World) :
  NoDup CATEGORY_SOURCES.*1 →
  let run := update_all_lists self CATEGORY_SOURCES w in
  (disk_fault w (io_ops w) = true →
   run.1 = Raise (OSError "Errno")
   ∧ files run.2 !! metadata_file self = files w !! metadata_file self)
  ∧ (disk_fault w (io_ops w) = false →
     ∃ oks w2,
       category_runs self CATEGORY_SOURCES (mkdir (domains_path self) w).2 oks w2
       ∧ oks.*1 = CATEGORY_SOURCES.*1
       ∧ let record := {| last_update := now w; results := list_to_map oks;
                          total_categories := Z.of_nat (length CATEGORY_SOURCES);
                          successful_updates := successes oks |} in
         (disk_fault w (io_ops w2) = true →
          run.1 = Raise (OSError "Errno")
          ∧ files run.2 !! metadata_file self = files w2 !! metadata_file self)
         ∧ (disk_fault w (io_ops w2) = false →
            disk_fault w (S (io_ops w2)) = true →
            run.1 = Raise (OSError "Errno")
            ∧ ∀ m, files run.2 !! metadata_file self ≠ Some (Json m))
         ∧ (disk_fault w (io_ops w2) = false →
            disk_fault w (S (io_ops w2)) = false →
            ∃ b, run.1 = Return b
                 ∧ (b = false ↔ ∀ c, (c, true) ∉ oks)
                 ∧ files run.2 !! metadata_file self = Some (Json record)
                 ∧ (∀ c ok, results record !! c = Some ok ↔ (c, ok) ∈ oks)
                 ∧ (successful_updates record = 0 ↔ ∀ c, (c, true) ∉ oks))).
Proof.
  intros Hnodup run. split.
  - intros Hfault. unfold run. rewrite update_all_lists_eq. unfold mkdir.
    destruct (fs_op_fault id w Hfault) as (w1 & -> & Hfiles & _). simpl.
    by rewrite Hfiles.
  - intros Hok.
    destruct (update_all_lists_after_mkdir self CATEGORY_SOURCES w Hnodup Hok)
      as (oks & w2 & Hruns & Hkeys & (_ & Hdisk & _) & Hrun).
    exists oks, w2. split; [done |]. split; [done |]. intros record. unfold record.
    split_and!; unfold run; rewrite Hrun; unfold open_w, json_dump.
    + intros Hfault. rewrite <- Hdisk in Hfault.
      destruct (fs_op_fault (<[metadata_file self := Text ""]>) w2 Hfault)
        as (w3 & -> & Hfiles & _). simpl. by rewrite Hfiles.
    + intros Hopen Hfault. rewrite <- Hdisk in Hopen, Hfault.
      rewrite (fs_op_ok _ w2 Hopen).
      match goal with |- context [fs_op ?f ?w3] =>
        destruct (fs_op_fault f w3) as (w4 & -> & Hfiles & _); [exact Hfault |] end.
      simpl. split; [done |]. intros m. rewrite Hfiles. simpl.
      by rewrite lookup_insert_eq.
    + intros Hopen Hdump. rewrite <- Hdisk in Hopen, Hdump.
      rewrite (fs_op_ok _ w2 Hopen).
      match goal with |- context [fs_op ?f ?w3] =>
        rewrite (fs_op_ok f w3) by exact Hdump end.
      simpl. eexists. split_and!; [done | | by rewrite lookup_insert_eq | |].
      * rewrite <- successes_zero.
        destruct (Z.eqb_spec (successes oks) 0); simpl; split; done.
      * intros c ok. symmetry. apply elem_of_list_to_map. by rewrite Hkeys.
      * apply successes_zero.
Qed.

(** C4 as stated fails: not every run stores a record.  On a disk that
    refuses to make the directory the call raises and leaves no metadata
    file; on a disk that refuses to open the metadata file the call
    raises after the category's file has been written, and leaves no
    metadata file either. *)
Lemma update_all_lists_run_without_record :
  let net := one_good_source "https://lists.example/social" "a.example" in
  let sources := [("social", ["https://lists.example/social"])] in
  let no_dir := update_all_lists updater0 sources (initial_world net (λ n, Nat.eqb n 0) ∅) in
  let no_open := update_all_lists updater0 sources (initial_world net (λ n, Nat.eqb n 3) ∅) in
  no_dir.1 = Raise (OSError "Errno")
  ∧ files no_dir.2 !! metadata_file updater0 = None
  ∧ no_open.1 = Raise (OSError "Errno")
  ∧ files no_open.2 !! category_file updater0 "social"
    = Some (Text ("a.example" +:+ newline))
  ∧ files no_open.2 !! metadata_file updater0 = None.
Proof. vm_compute. done. Qed.

(* ===================================================================== *)
(** ** parse_logs and generate_summary *)
(* ===================================================================== *)

Lemma forallb_Forall {A} (f : A → bool) (l : list A) :
  forallb f l = true ↔ Forall (λ x, f x = true) l.
Proof.
  induction l as [|x l IH]; simpl; [by split |].
  rewrite andb_true_iff, Forall_cons, IH. done.
Qed.

Lemma forallb_Exists {A} (f : A → bool) (l : list A) :
  forallb f l = false ↔ Exists (λ x, f x = false) l.
Proof.
  induction l as [|x l IH]; simpl.
  - split; [done | by intros ?%Exists_nil].
  - rewrite andb_false_iff, Exists_cons, IH. done.
Qed.

Lemma parse_logs_unavailable (host : Host) (self : LogParser) (days : Z)
    (device_filter : option string) :
  check_db_connection self = false →
  parse_logs host self days device_filter = Return [].
Proof. intros Hcheck. unfold parse_logs. by rewrite Hcheck. Qed.

Lemma parse_logs_overflow (host : Host) (self : LogParser) (days : Z)
    (device_filter : option string) (e : exn) :
  check_db_connection self = true →
  start_time host days = Raise e →
  parse_logs host self days device_filter = Raise e.
Proof. intros Hcheck Hstart. unfold parse_logs. by rewrite Hcheck, Hstart. Qed.

Lemma parse_logs_no_timestamp (host : Host) (self : LogParser) (days : Z)
    (device_filter : option string) (d : Z) (e : exn) :
  start_time host days = Return d →
  local_timestamp host d = Raise e →
  parse_logs host self days device_filter = Return [].
Proof.
  intros Hstart Hlocal. unfold parse_logs, parse_logs_try. rewrite Hstart, Hlocal.
  by destruct (negb _).
Qed.

(** [parse_logs] on a store that answers, for a window that starts:
    nothing is returned when pandas cannot hold the time of some record
    of the window, or when the filter is not a pattern; otherwise the
    rows of the window are returned, less those the filter drops. *)
Lemma parse_logs_readable (host : Host) (self : LogParser) (days : Z)
    (device_filter : option string) (rows : list QueryRecord) (t : Z) :
  db self = DbQueries rows →
  window_starts host days t →
  parse_logs host self days device_filter
  = Return (if forallb (λ r, to_datetime_ok host (timestamp r)) (window_of t rows)
            then
              match device_filter with
              | None => process_row self <$> window_of t rows
              | Some pat =>
                  if String.eqb pat "" then process_row self <$> window_of t rows
                  else
                    match str_contains host pat with
                    | Some matches =>
                        filter (λ row, matches (Device row) = true)
                          (process_row self <$> window_of t rows)
                    | None => []
                    end
              end
            else []).
Proof.
  intros Hdb (d & Hstart & Hlocal).
  unfold parse_logs, parse_logs_try, check_db_connection, read_sql.
  rewrite Hdb, Hstart, Hlocal. simpl. fold (window_of t rows).
  destruct (window_of t rows) as [|r0 rs]; simpl.
  - destruct device_filter as [pat |]; [| done].
    destruct (String.eqb pat ""); [done |]. by destruct (str_contains host pat).
  - destruct (to_datetime_ok host (timestamp r0) && forallb _ rs); [| done].
    destruct device_filter as [pat |]; [| done].
    destruct (String.eqb pat ""); [done |]. by destruct (str_contains host pat).
Qed.

Lemma window_of_no_data (t : Z) (rows : list QueryRecord) :
  (∀ r, r ∈ rows → timestamp r < t) → window_of t rows = [].
Proof.
  intros Hold. unfold window_of. rewrite filter_none; [done |].
  intros r Hr. specialize (Hold r Hr). lia.
Qed.

Lemma parse_logs_no_data (host : Host) (self : LogParser) (days t : Z)
    (device_filter : option string) :
  window_starts host days t →
  no_data t self →
  parse_logs host self days device_filter = Return [].
Proof.
  intros Hstart Hno. unfold no_data in Hno.
  destruct (db self) as [| | | | rows] eqn:Hdb;
    try (apply parse_logs_unavailable; unfold check_db_connection; by rewrite Hdb).
  - destruct Hstart as (d & Hstart & Hlocal).
    unfold parse_logs, parse_logs_try, check_db_connection, read_sql.
    by rewrite Hdb, Hstart, Hlocal.
  - rewrite (parse_logs_readable host self days device_filter rows t Hdb Hstart).
    rewrite (window_of_no_data t rows Hno). simpl.
    destruct device_filter as [pat |]; [| done].
    destruct (String.eqb pat ""); [done |]. by destruct (str_contains host pat).
Qed.

Lemma start_time_returns (host : Host) (days : Z) :
  (∃ d, start_time host days = Return d)
  ↔ Z.abs days ≤ 999999999
    ∧ 0 ≤ now_local host - days * microseconds_per_day < max_ordinal * microseconds_per_day.
Proof.
  unfold start_time.
  destruct (Z.ltb_spec 999999999 (Z.abs days)).
  { split; [by intros [d ?] | lia]. }
  destruct (Z.leb_spec 0 (now_local host - days * microseconds_per_day));
    destruct (Z.ltb_spec (now_local host - days * microseconds_per_day)
                (max_ordinal * microseconds_per_day)); simpl;
    (split; [intros [d Hd]; (done || lia) | intros ?; (by eexists) || lia]).
Qed.

(** C2, as the code has it.  When the query-log store is unavailable,
    [parse_logs] followed by [generate_summary] raises nothing and gives
    the empty dict.  When the store passes the check, the start of the
    window is computed first, outside any [try]: [OverflowError] leaves
    the pipeline when [days] is beyond 999999999 either way or the start
    falls outside the years 1 to 9999.  Once the start is computed, a
    window with no record, and a time zone conversion that raises, give
    the empty dict and no error.  The empty dict has no field at all,
    [total_queries] included; a reader that asks for a count with the
    default 0 gets 0. *)
Theorem aggregate_no_data_is_empty_dict (isoformat : Z → string)
    (value_counts : list string → list (string * Z)) (host : Host)
    (self : LogParser) (days : Z) (device_filter : option string) :
  let summary := aggregate isoformat value_counts host self days device_filter in
  (check_db_connection self = false → summary = Return ∅)
  ∧ (check_db_connection self = true →
     ∀ e, start_time host days = Raise e → summary = Raise e)
  ∧ ((∃ d, start_time host days = Return d)
     ↔ Z.abs days ≤ 999999999
       ∧ 0 ≤ now_local host - days * microseconds_per_day
           < max_ordinal * microseconds_per_day)
  ∧ (∀ d e, start_time host days = Return d →
            local_timestamp host d = Raise e → summary = Return ∅)
  ∧ (∀ t, window_starts host days t → no_data t self → summary = Return ∅)
  ∧ (∀ key, (∅ : gmap string PyVal) !! key = None)
  ∧ summary_get ∅ "total_queries" = PyInt 0.
Proof.
  intros summary. unfold summary, aggregate. split_and!.
  - intros Hcheck. by rewrite parse_logs_unavailable.
  - intros Hcheck e Hstart. by rewrite (parse_logs_overflow _ _ _ _ e).
  - apply start_time_returns.
  - intros d e Hstart Hlocal. by rewrite (parse_logs_no_timestamp _ _ _ _ d e).
  - intros t Hstart Hno. by rewrite (parse_logs_no_data _ _ _ t).
  - apply lookup_empty.
  - done.
Qed.

(** C2 as stated fails.  With no database file the summary is the empty
    dict, which has no [total_queries] field to equal 0.  And with a
    store that holds no record at all, a window of a thousand million
    days makes the pipeline raise [OverflowError]. *)
Lemma aggregate_missing_store_has_no_total_queries :
  (∃ summary,
     aggregate (λ _, "") (λ _, []) utc_host (parser_over DbMissing) 1 None = Return summary
     ∧ summary !! "total_queries" = None)
  ∧ ∃ msg, aggregate (λ _, "") (λ _, []) utc_host (parser_over (DbQueries [])) 1000000000 None
           = Raise (OverflowError msg).
Proof. split; [exists ∅; by split | by eexists]. Qed.

Lemma blocked_count_spec (df : list LogRow) : blocked_count df = count_not_allowed df.
Proof.
  unfold blocked_count. induction df as [|row df IH]; [done |].
  cbn [count_not_allowed]. rewrite <- IH. destruct (decide (status (query row) = 2)) as [Heq | Hne].
  - by rewrite filter_cons_False by (intros Hne; by apply Hne).
  - rewrite filter_cons_True by done. simpl length. lia.
Qed.

(** C7.  For a batch that is not empty, [blocked_queries] is the number
    of records whose status code is not 2 (a record of status 0 counts),
    and [blocked_percentage] is that number divided by the number of
    records, times 100, in floating point; with 7 such records out of 10
    the two fields are 7 and 70.0. *)
Theorem generate_summary_blocked (isoformat : Z → string)
    (value_counts : list string → list (string * Z)) (df : list LogRow) :
  df ≠ [] →
  let summary := generate_summary isoformat value_counts df in
  let total := Z.of_nat (length df) in
  summary !! "blocked_queries" = Some (PyInt (count_not_allowed df))
  ∧ summary !! "blocked_percentage"
    = Some (PyFloat (float_of_Z (count_not_allowed df) / float_of_Z total * 100)%float)
  ∧ (∀ row, status (query row) = 0 →
       count_not_allowed (row :: df) = 1 + count_not_allowed df)
  ∧ (length df = 10%nat → count_not_allowed df = 7 →
       summary !! "blocked_queries" = Some (PyInt 7)
       ∧ summary !! "blocked_percentage" = Some (PyFloat 70%float)).
Proof.
  intros Hne. destruct df as [|row0 rest]; [done |].
  set (df := row0 :: rest). intros summary total.
  assert (summary !! "blocked_queries" = Some (PyInt (count_not_allowed df))) as Hblocked.
  { unfold summary. rewrite <- blocked_count_spec. reflexivity. }
  assert (summary !! "blocked_percentage"
          = Some (PyFloat (float_of_Z (count_not_allowed df) / float_of_Z total * 100)%float))
    as Hpct.
  { unfold summary. rewrite <- blocked_count_spec.
    assert ((0 <? total) = true) as Hpos by (apply Z.ltb_lt; unfold total, df; simpl; lia).
    unfold generate_summary, df. fold df. fold total. rewrite Hpos. reflexivity. }
  split_and!; [done | done | |].
  - intros row Hrow. cbn [count_not_allowed]. rewrite Hrow. done.
  - intros Hten Hseven. rewrite Hblocked, Hpct. unfold total. rewrite Hten, Hseven.
    split; [done |]. do 2 f_equal.
Qed.

(* ===================================================================== *)
(** ** The device filter *)
(* ===================================================================== *)

Lemma prefix_nil (s : string) : String.prefix "" s = true.
Proof. by destruct s. Qed.

Lemma prefix_cons (a b : ascii) (s1 s2 : string) :
  String.prefix (String a s1) (String b s2) = bool_decide (a = b) && String.prefix s1 s2.
Proof.
  simpl. destruct (ascii_dec a b) as [Heq | Hne].
  - by rewrite bool_decide_eq_true_2.
  - by rewrite bool_decide_eq_false_2.
Qed.

Lemma prefix_spec (needle s : string) :
  String.prefix needle s = true ↔ ∃ q, s = needle +:+ q.
Proof.
  revert s. induction needle as [|a needle IH]; intros s.
  - rewrite prefix_nil. split; [intros _; by exists s | done].
  - destruct s as [|b s].
    + split; [done | intros [q Hq]; discriminate].
    + rewrite prefix_cons, andb_true_iff, bool_decide_eq_true, IH. split.
      * intros [-> [q ->]]. by exists q.
      * intros [q Hq]. simpl in Hq. injection Hq as -> ->. split; [done | by exists q].
Qed.

Lemma contains_spec (s needle : string) :
  PyStr.contains s needle = true ↔ ∃ p q, s = p +:+ needle +:+ q.
Proof.
  induction s as [|c s IH].
  - change (PyStr.contains "" needle) with (String.prefix needle "" || false).
    rewrite orb_false_r, prefix_spec. split.
    + intros [q Hq]. by exists "", q.
    + intros ([|c p] & q & Hq); [by exists q | discriminate].
  - change (PyStr.contains (String c s) needle)
      with (String.prefix needle (String c s) || PyStr.contains s needle).
    rewrite orb_true_iff, prefix_spec, IH. split.
    + intros [[q Hq] | (p & q & ->)]; [by exists "", q | by exists (String c p), q].
    + intros ([|c' p] & q & Hq); [left; by exists q | right].
      simpl in Hq. injection Hq as _ ->. by exists p, q.
Qed.

Lemma re_match_here_plain (pat : string) (items : list ReItem) (s : string) :
  plain pat = true →
  re_compile pat = Some items →
  re_match_here items s = String.prefix (PyStr.lower pat) (PyStr.lower s).
Proof.
  revert items s. induction pat as [|c pat IH]; intros items s Hplain Hcompile.
  - injection Hcompile as <-. simpl. by rewrite prefix_nil.
  - cbn [plain] in Hplain. apply andb_true_iff in Hplain as [Hc Hplain].
    apply negb_true_iff in Hc. cbn [re_compile] in Hcompile.
    destruct (Ascii.eqb_spec c ".") as [-> | _]; [discriminate |].
    rewrite Hc in Hcompile.
    destruct (re_compile pat) as [items' |] eqn:Hpat; [| discriminate].
    injection Hcompile as <-.
    destruct s as [|x s]; [done |].
    cbn [re_match_here re_item_matches PyStr.lower]. rewrite prefix_cons.
    rewrite (IH items' s Hplain eq_refl). f_equal.
    destruct (Ascii.eqb_spec (PyStr.lower_char c) (PyStr.lower_char x)).
    + by rewrite bool_decide_eq_true_2.
    + by rewrite bool_decide_eq_false_2.
Qed.

Lemma re_search_plain (pat : string) (items : list ReItem) (s : string) :
  plain pat = true →
  re_compile pat = Some items →
  re_search items s = PyStr.contains (PyStr.lower s) (PyStr.lower pat).
Proof.
  intros Hplain Hcompile. induction s as [|x s IH].
  - cbn [re_search PyStr.lower PyStr.contains].
    by rewrite (re_match_here_plain pat items "" Hplain Hcompile).
  - cbn [re_search PyStr.contains]. rewrite IH.
    by rewrite (re_match_here_plain pat items (String x s) Hplain Hcompile).
Qed.

(** Sorting the newest first and dropping records commute. *)
Lemma insert_desc_dropped (P : QueryRecord → Prop) `{∀ r, Decision (P r)}
    (r : QueryRecord) (l : list QueryRecord) :
  ¬ P r → filter P (insert_desc r l) = filter P l.
Proof.
  intros Hr. induction l as [|r' l IH]; simpl.
  - by rewrite filter_cons_False.
  - destruct (timestamp r' <=? timestamp r).
    + by rewrite filter_cons_False.
    + rewrite !filter_cons, IH. done.
Qed.

Lemma insert_desc_newest (r : QueryRecord) (l : list QueryRecord) :
  Forall (λ x, timestamp x ≤ timestamp r) l → insert_desc r l = r :: l.
Proof.
  destruct 1 as [|x l Hx _]; [done |]. simpl.
  by rewrite (proj2 (Z.leb_le _ _) Hx).
Qed.

Lemma insert_desc_kept (P : QueryRecord → Prop) `{∀ r, Decision (P r)}
    (r : QueryRecord) (l : list QueryRecord) :
  StronglySorted (λ a b, timestamp b ≤ timestamp a) l →
  P r → filter P (insert_desc r l) = insert_desc r (filter P l).
Proof.
  intros Hsorted Hr. induction Hsorted as [|r' l Hsorted IH Hall]; simpl.
  - by rewrite filter_cons_True.
  - destruct (timestamp r' <=? timestamp r) eqn:Hle.
    + rewrite filter_cons_True by done. symmetry. apply insert_desc_newest.
      apply Z.leb_le in Hle. apply Forall_forall. intros x Hx.
      apply list_elem_of_filter in Hx as [_ Hx].
      apply elem_of_cons in Hx as [-> | Hx]; [done |].
      rewrite Forall_forall in Hall. specialize (Hall x Hx). simpl in Hall. lia.
    + rewrite !filter_cons. destruct (decide (P r')); simpl; rewrite ?Hle, IH; done.
Qed.

Lemma insert_desc_sorted (r : QueryRecord) (l : list QueryRecord) :
  StronglySorted (λ a b, timestamp b ≤ timestamp a) l →
  StronglySorted (λ a b, timestamp b ≤ timestamp a) (insert_desc r l)
  ∧ ∀ x, x ∈ insert_desc r l ↔ x = r ∨ x ∈ l.
Proof.
  induction 1 as [|r' l Hsorted IH Hall]; simpl.
  - split; [repeat constructor | intros x; set_solver].
  - destruct (timestamp r' <=? timestamp r) eqn:Hle.
    + split; [| intros x; set_solver].
      apply Z.leb_le in Hle. constructor; [by constructor |].
      constructor; [done |]. eapply Forall_impl; [exact Hall |]. simpl. intros; lia.
    + destruct IH as [IHs IHm]. apply Z.leb_gt in Hle. split.
      * constructor; [done |]. apply Forall_forall. intros x Hx.
        apply IHm in Hx as [-> | Hx]; [lia |].
        rewrite Forall_forall in Hall. by apply Hall.
      * intros x. rewrite !elem_of_cons, IHm. tauto.
Qed.

Lemma order_by_timestamp_desc_sorted (l : list QueryRecord) :
  StronglySorted (λ a b, timestamp b ≤ timestamp a) (order_by_timestamp_desc l).
Proof.
  induction l as [|r l IH]; [constructor |]. simpl. by apply insert_desc_sorted.
Qed.

Lemma order_by_timestamp_desc_filter (P : QueryRecord → Prop) `{∀ r, Decision (P r)}
    (l : list QueryRecord) :
  order_by_timestamp_desc (filter P l) = filter P (order_by_timestamp_desc l).
Proof.
  induction l as [|r l IH]; [done |]. rewrite filter_cons. simpl.
  destruct (decide (P r)) as [Hr | Hr].
  - simpl. rewrite IH. symmetry.
    by apply insert_desc_kept; [apply order_by_timestamp_desc_sorted |].
  - rewrite IH. symmetry. by apply insert_desc_dropped.
Qed.

Lemma filter_fmap {A B} (f : A → B) (P : B → Prop) `{∀ y, Decision (P y)} (l : list A) :
  filter P (f <$> l) = f <$> filter (λ x, P (f x)) l.
Proof.
  induction l as [|x l IH]; [done |].
  rewrite fmap_cons, !filter_cons, IH. by destruct (decide (P (f x))).
Qed.

Lemma plain_compiles (pat : string) :
  plain pat = true → ∃ items, re_compile pat = Some items.
Proof.
  induction pat as [|c pat IH]; [by exists [] |].
  cbn [plain re_compile]. intros [Hc Hplain]%andb_true_iff.
  apply negb_true_iff in Hc. destruct (IH Hplain) as [items ->].
  destruct (Ascii.eqb c "."); [by eexists |]. rewrite Hc. by eexists.
Qed.

Lemma window_of_filter (P : QueryRecord → Prop) `{∀ r, Decision (P r)} (t : Z)
    (rows : list QueryRecord) :
  window_of t (filter P rows) = filter P (window_of t rows).
Proof.
  unfold window_of. rewrite <- order_by_timestamp_desc_filter. f_equal.
  rewrite !list_filter_filter. apply list_filter_iff. tauto.
Qed.

Lemma filter_idemp {A} (P : A → Prop) `{∀ x, Decision (P x)} (l : list A) :
  filter P (filter P l) = filter P l.
Proof. rewrite list_filter_filter. apply list_filter_iff. tauto. Qed.

(** C9, as the code has it.  [str.contains] reads the filter as a
    regular expression, case ignored.  On a store that answers, for a
    window that starts and a filter that is not empty: when the filter
    is not a valid expression, or pandas cannot hold the time of some
    record of the window, the error is swallowed and no record is kept;
    otherwise the records kept are exactly those whose resolved device
    name the expression matches somewhere, and the records dropped leave
    no mark: the rows returned, and so every field of the summary, are
    the same as if the store had never held them.  For a filter with no
    special character of [re] the names matched are those that contain
    it, case ignored. *)
Theorem parse_logs_device_filter (host : Host) (self : LogParser) (days : Z)
    (pat : string) (rows : list QueryRecord) (t : Z) :
  pat ≠ "" →
  db self = DbQueries rows →
  window_starts host days t →
  let window := window_of t rows in
  let kept := parse_logs host self days (Some pat) in
  (str_contains host pat = None → kept = Return [])
  ∧ (Exists (λ r, to_datetime_ok host (timestamp r) = false) window → kept = Return [])
  ∧ (∀ matches,
       str_contains host pat = Some matches →
       Forall (λ r, to_datetime_ok host (timestamp r) = true) window →
       let matched := λ r : QueryRecord, matches (device_of self r) = true in
       let without := with_db self (DbQueries (filter matched rows)) in
       kept = Return (process_row self <$> filter matched window)
       ∧ (∃ df, parse_logs host self days None = Return df
                ∧ kept = Return (filter (λ row, matches (Device row) = true) df))
       ∧ parse_logs host without days (Some pat) = kept
       ∧ ∀ isoformat value_counts,
           aggregate isoformat value_counts host without days (Some pat)
           = aggregate isoformat value_counts host self days (Some pat))
  ∧ (plain pat = true →
     ∃ matches, str_contains host pat = Some matches
                ∧ ∀ name, matches name = true ↔ contains_ignoring_case name pat).
Proof.
  intros Hpat Hdb Hstart window kept.
  pose proof (parse_logs_readable host self days (Some pat) rows t Hdb Hstart) as Hkept.
  cbv iota beta in Hkept.
  rewrite (proj2 (String.eqb_neq _ _) Hpat) in Hkept. fold window kept in Hkept.
  split_and!.
  - intros Hnone. rewrite Hkept, Hnone. by destruct (forallb _ window).
  - intros Hout. apply forallb_Exists in Hout. by rewrite Hkept, Hout.
  - intros matches Hsome Hheld matched without.
    pose proof Hheld as Hall. apply forallb_Forall in Hall.
    rewrite Hall, Hsome in Hkept.
    assert (kept = Return (process_row self <$> filter matched window)) as Hrows.
    { rewrite Hkept. f_equal. by rewrite filter_fmap. }
    assert (parse_logs host without days (Some pat) = kept) as Hsame.
    { rewrite (parse_logs_readable host without days (Some pat) (filter matched rows) t
                 eq_refl Hstart).
      cbv iota beta. rewrite (proj2 (String.eqb_neq _ _) Hpat), Hsome.
      rewrite (window_of_filter matched). fold window.
      assert (forallb (λ r, to_datetime_ok host (timestamp r)) (filter matched window) = true)
        as ->.
      { apply forallb_Forall, Forall_forall. intros r [_ Hr]%list_elem_of_filter.
        rewrite Forall_forall in Hheld. by apply Hheld. }
      rewrite Hrows. f_equal. rewrite filter_fmap.
      change (λ x, matches (Device (process_row without x)) = true) with matched.
      by rewrite filter_idemp. }
    split_and!; [done | | done |].
    + exists (process_row self <$> window). split; [| done].
      rewrite (parse_logs_readable host self days None rows t Hdb Hstart).
      fold window. by rewrite Hall.
    + intros isoformat value_counts. unfold aggregate. fold kept. by rewrite Hsame.
  - intros Hplain. destruct (plain_compiles pat Hplain) as [items Hcompile].
    exists (re_search items). split; [unfold str_contains; by rewrite Hcompile |].
    intros name. rewrite (re_search_plain pat items name Hplain Hcompile).
    apply contains_spec.
Qed.

(** C9 as stated fails.  The filter 192.168.1.1 keeps the record of the
    device 192.168.101.1, whose name does not contain the filter: each
    dot of the pattern stands for any character.  And the filter [[],
    which is not a regular expression, keeps no record, not even that of
    a device whose name contains it. *)
Lemma parse_logs_filter_is_a_pattern :
  let self := parser_over (DbQueries [query_from "192.168.101.1" 2]) in
  let self' := parser_over (DbQueries [query_from "[fe80::1]" 2]) in
  parse_logs utc_host self 1 (Some "192.168.1.1")
  = Return [process_row self (query_from "192.168.101.1" 2)]
  ∧ PyStr.contains (PyStr.lower "192.168.101.1") (PyStr.lower "192.168.1.1") = false
  ∧ parse_logs utc_host self' 1 (Some "[") = Return []
  ∧ PyStr.contains (PyStr.lower "[fe80::1]") (PyStr.lower "[") = true.
Proof. vm_compute. done. Qed.

(* ===================================================================== *)
(** ** process_hosts_file and the category file *)
(* ===================================================================== *)

Lemma mentions_app (a b : string) (c : ascii) :
  mentions (a +:+ b) c ↔ mentions a c ∨ mentions b c.
Proof. induction a as [|x a IH]; simpl; [tauto | rewrite IH; tauto]. Qed.

Lemma lstrip_mentions (s : string) (c : ascii) :
  mentions (PyStr.lstrip s) c → mentions s c.
Proof.
  induction s as [|x s IH]; simpl; [done |].
  destruct (PyStr.isspace x); simpl; tauto.
Qed.

Lemma rstrip_mentions (s : string) (c : ascii) :
  mentions (PyStr.rstrip s) c → mentions s c.
Proof.
  induction s as [|x s IH]; simpl; [done |].
  destruct (PyStr.rstrip s) as [|y r]; [destruct (PyStr.isspace x) |]; simpl in *; tauto.
Qed.

Lemma strip_mentions (s : string) (c : ascii) :
  mentions (PyStr.strip s) c → mentions s c.
Proof. intros H. by apply lstrip_mentions, rstrip_mentions. Qed.

Lemma split_go_tokens (cur s : string) (tok : string) :
  tok ∈ PyStr.split_go cur s →
  tok ≠ "" ∧ ∀ c, mentions tok c → mentions cur c ∨ mentions s c.
Proof.
  revert cur. induction s as [|x s IH]; intros cur; cbn [PyStr.split_go].
  - destruct (String.eqb_spec cur ""); [by intros ?%elem_of_nil |].
    intros ->%list_elem_of_singleton. split; [done | tauto].
  - destruct (PyStr.isspace x).
    + destruct (String.eqb_spec cur "").
      * intros [Hne Hc]%IH. split; [done |]. intros c [[] | ?]%Hc. right; by right.
      * intros [-> | [Hne Hc]%IH]%elem_of_cons; (split; [done |]); [tauto |].
        intros c [[] | ?]%Hc. right; by right.
    + intros [Hne Hc]%IH. split; [done |].
      intros c [[? | [-> | []]]%mentions_app | ?]%Hc; [by left | right; by left | right; by right].
Qed.

Lemma splitlines_go_lines (n : nat) (cur s line : string) :
  (String.length s ≤ n)%nat →
  line ∈ PyStr.splitlines_go cur s →
  ∀ c, mentions line c →
       mentions cur c ∨ (mentions s c ∧ PyStr.is_linebreak c = false).
Proof.
  revert cur s. induction n as [|n IH]; intros cur s Hlen.
  - destruct s; [| simpl in Hlen; lia]. cbn [PyStr.splitlines_go].
    destruct (String.eqb cur ""); [by intros ?%elem_of_nil |].
    intros ->%list_elem_of_singleton. tauto.
  - destruct s as [|x s]; cbn [PyStr.splitlines_go].
    { destruct (String.eqb cur ""); [by intros ?%elem_of_nil |].
      intros ->%list_elem_of_singleton. tauto. }
    simpl in Hlen. destruct (PyStr.is_linebreak x) eqn:Hx.
    + destruct s as [|x' s'].
      { intros ->%list_elem_of_singleton. tauto. }
      simpl in Hlen.
      destruct (Ascii.eqb x "013" && Ascii.eqb x' "010").
      * intros [-> | Hin]%elem_of_cons c Hc; [by left |].
        destruct (IH "" s' ltac:(lia) Hin c Hc) as [[] | [? ?]].
        right. split; [right; by right | done].
      * intros [-> | Hin]%elem_of_cons c Hc; [by left |].
        destruct (IH "" (String x' s') ltac:(simpl; lia) Hin c Hc) as [[] | [? ?]].
        right. split; [by right | done].
    + intros Hin c Hc.
      destruct (IH (cur +:+ String x "") s ltac:(lia) Hin c Hc)
        as [[? | [-> | []]]%mentions_app | [? ?]].
      * by left.
      * right. split; [by left | done].
      * right. split; [by right | done].
Qed.

Lemma splitlines_one_boundary_free (content line : string) :
  line ∈ PyStr.splitlines content →
  ∀ c, mentions line c → PyStr.is_linebreak c = false.
Proof.
  intros Hin c Hc.
  by destruct (splitlines_go_lines _ "" content line (le_n _) Hin c Hc) as [[] | [_ ?]].
Qed.

Lemma process_line_one_line (domains : gset string) (line d : string) :
  (∀ c, mentions line c → PyStr.is_linebreak c = false) →
  d ∈ process_line domains line → d ∈ domains ∨ one_line d.
Proof.
  intros Hline. unfold process_line.
  assert (∀ c, mentions (PyStr.strip line) c → PyStr.is_linebreak c = false) as Hstrip.
  { intros c Hc. by apply Hline, strip_mentions. }
  destruct (String.eqb_spec (PyStr.strip line) "") as [| Hne]; simpl; [by left |].
  destruct (PyStr.startswith (PyStr.strip line) "#"); [by left |].
  assert (d ∈ ({[PyStr.strip line]} ∪ domains : gset string) → d ∈ domains ∨ one_line d)
    as Hbare.
  { intros [->%elem_of_singleton | ?]%elem_of_union; [right | by left]. by split. }
  destruct (PyStr.split (PyStr.strip line)) as [|part0 [|part1 parts]] eqn:Hparts;
    [done | done |].
  destruct (bool_decide (part0 ∈ ["0.0.0.0"; "127.0.0.1"])); [| done].
  destruct (negb (String.eqb part1 "localhost")); [| by left].
  intros [->%elem_of_singleton | ?]%elem_of_union; [right | by left].
  assert (part1 ∈ PyStr.split_go "" (PyStr.strip line)) as Hin.
  { fold (PyStr.split (PyStr.strip line)). rewrite Hparts. set_solver. }
  apply split_go_tokens in Hin as [Hne1 Hchars]. split; [done |].
  intros c Hc. by destruct (Hchars c Hc) as [[] | ?%Hstrip].
Qed.

Lemma process_hosts_file_one_line (content d : string) :
  d ∈ process_hosts_file content → one_line d.
Proof.
  unfold process_hosts_file.
  pose proof (splitlines_one_boundary_free content) as Hlines.
  assert (∀ lines (acc : gset string),
            (∀ line, line ∈ lines → ∀ c, mentions line c → PyStr.is_linebreak c = false) →
            (∀ x, x ∈ acc → one_line x) →
            ∀ x, x ∈ foldl process_line acc lines → one_line x) as Hfold.
  { induction lines as [|line lines IH]; intros acc Hl Hacc; [done |].
    simpl. apply IH.
    - intros l Hl'. apply Hl, elem_of_cons. by right.
    - intros x Hx. apply process_line_one_line in Hx as [? | ?]; [by apply Hacc | done |].
      apply Hl, elem_of_cons. by left. }
  apply (Hfold _ ∅ Hlines). intros x Hx. by apply not_elem_of_empty in Hx.
Qed.

(** A comment line of the source, and an empty one, add no domain. *)
Lemma process_line_skips_comment (domains : gset string) (line : string) :
  PyStr.strip line = "" ∨ PyStr.startswith (PyStr.strip line) "#" = true →
  process_line domains line = domains.
Proof.
  unfold process_line. intros [-> | ->]; [done |]. by rewrite orb_true_r.
Qed.

Example process_hosts_file_examples :
  process_hosts_file "0.0.0.0 ads.example.com" = {["ads.example.com"]}
  ∧ process_hosts_file "0.0.0.0 localhost" = ∅
  ∧ process_hosts_file "# comment" = ∅
  ∧ process_hosts_file "tracker.example" = {["tracker.example"]}.
Proof. vm_compute. done. Qed.

Lemma retry_loop_text (url : string) (retries : Z) (rem : nat) (attempt : Z)
    (w w1 : World) (text : string) :
  retry_loop url retries rem attempt w = (Return (Some text), w1) →
  ∃ n, net w n url = Return text.
Proof.
  revert attempt w. induction rem as [|rem IH]; intros attempt w; [done |].
  destruct (net w (requests w) url) as [t | e] eqn:Hnet.
  - rewrite (retry_loop_ok _ _ _ _ _ _ Hnet). intros [= <- _]. by exists (requests w).
  - destruct e as [msg | | | | |];
      try (cbn [retry_loop]; unfold bind, try, session_get; rewrite Hnet; discriminate).
    destruct (Z.lt_ge_cases attempt (retries - 1)) as [Hmore | Hlast].
    + rewrite (retry_loop_again _ _ _ _ _ _ Hnet Hmore). intros Hrun.
      by apply IH in Hrun.
    + by rewrite (retry_loop_last _ _ _ _ _ _ Hnet Hlast).
Qed.

Lemma all_fail_same_oracles (self : DomainUpdater) (urls : list string) (w w' : World) :
  all_fail self urls w w' → same_oracles w w'.
Proof.
  induction 1 as [w | url urls w e w1 w2 Hfail _ IH]; [done |].
  pose proof (fetch_and_normalize_disk_untouched self url w) as (Hsame & _).
  rewrite Hfail in Hsame. by apply (same_oracles_trans w w1).
Qed.

Lemma sorted_spec (domains : gset string) :
  Sorted String.le (sorted domains)
  ∧ NoDup (sorted domains)
  ∧ ∀ d, d ∈ sorted domains ↔ d ∈ domains.
Proof.
  unfold sorted. split_and!.
  - apply Sorted_merge_sort. apply _.
  - rewrite merge_sort_Permutation. apply NoDup_elements.
  - intros d. rewrite merge_sort_Permutation. apply elem_of_elements.
Qed.

(** C8, as the code has it.  After a successful update the category's
    file holds exactly the normalized domain set of one of the URLs, as
    the source answered it: the domains in ascending order, none twice,
    each on a line of its own ended by a newline, none empty and none
    holding a line boundary.  The domains are written as the normalizer
    gave them, with no change of case; a comment line of the source
    gives no domain. *)
Theorem download_category_file_content (self : DomainUpdater) (category : string)
    (urls : list string) (w w' : World) :
  download_category self category urls w = (Return true, w') →
  ∃ url text,
    url ∈ urls
    ∧ (∃ n, net w n url = Return text)
    ∧ files w' !! category_file self category
      = Some (Text (file_text (sorted (process_hosts_file text))))
    ∧ Sorted String.le (sorted (process_hosts_file text))
    ∧ NoDup (sorted (process_hosts_file text))
    ∧ (∀ d, d ∈ sorted (process_hosts_file text) ↔ d ∈ process_hosts_file text)
    ∧ Forall one_line (sorted (process_hosts_file text))
    ∧ (∀ domains line,
         PyStr.strip line = "" ∨ PyStr.startswith (PyStr.strip line) "#" = true →
         process_line domains line = domains).
Proof.
  intros Hrun.
  destruct (url_loop_cases self urls ∅ w) as [(w1 & _ & Hloop)
    | (before & url & after & domains & w0 & w1 & -> & Hfail & Hfetch & Hloop)].
  { rewrite download_category_eq, Hloop in Hrun. discriminate. }
  apply fetch_and_normalize_inv in Hfetch as (text & Hdl & ->).
  exists url, text.
  destruct (download_category_after_first_success self category before url after text
              w w0 w1 Hfail Hdl) as (_ & _ & _ & Hfile).
  destruct (sorted_spec (process_hosts_file text)) as (Hsorted & Hnodup & Hmem).
  split_and!; [set_solver | | | done | done | done | |].
  - apply retry_loop_text in Hdl as [n Hn]. exists n.
    apply all_fail_same_oracles in Hfail as (Hnet & _). by rewrite <- Hnet.
  - rewrite (Hfile w' Hrun). apply lookup_insert_eq.
  - apply Forall_forall. intros d Hd. apply Hmem in Hd.
    by apply process_hosts_file_one_line in Hd.
  - apply process_line_skips_comment.
Qed.

(** C8 as stated fails: a source that lists a domain in capitals has it
    written to the category file in capitals. *)
Lemma download_category_keeps_case :
  let net := one_good_source "https://lists.example/social" ("Ads.Example.COM" +:+ newline) in
  let run := download_category updater0 "social" ["https://lists.example/social"]
               (initial_world net (λ _, false) ∅) in
  run.1 = Return true
  ∧ files run.2 !! "/srv/domains/social_domains.txt"
    = Some (Text ("Ads.Example.COM" +:+ newline))
  ∧ PyStr.lower "Ads.Example.COM" ≠ "Ads.Example.COM".
Proof. vm_compute. split_and!; done. Qed.

(* ===================================================================== *)
(** ** The statements at concrete inputs *)
(* ===================================================================== *)


Lemma download_with_retry_no_attempts_witness :
  download_with_retry updater0 "https://lists.example/ads" (Some 0)
    (initial_world (one_good_source "https://lists.example/ads" "ads.example") (λ _, false) ∅)
  = (Return None,
     initial_world (one_good_source "https://lists.example/ads" "ads.example") (λ _, false) ∅).
Proof. apply download_with_retry_no_attempts. simpl. lia. Defined.

(** Three URLs: the first fails on each of its three attempts, the
    second answers, the third is never asked. *)
Lemma download_category_first_success_witness :
  let text := "b.example" +:+ newline +:+ "a.example" in
  let w := initial_world (one_good_source "https://mirror.example/social" text) (λ _, false) ∅ in
  let urls := ["https://lists.example/social"; "https://mirror.example/social";
               "https://third.example/social"] in
  ∃ w1 w2,
    url_loop updater0 urls ∅ w = (Return (process_hosts_file text, true), w1)
    ∧ gets_of (trace w1)
      = ["https://lists.example/social"; "https://lists.example/social";
         "https://lists.example/social"; "https://mirror.example/social"]
    ∧ download_category updater0 "social" urls w = (Return true, w2)
    ∧ files w2 = {["/srv/domains/social_domains.txt" :=
                     Text (file_text ["a.example"; "b.example"])]}.
Proof.
  intros text w urls.
  set (w0 := (fetch_and_normalize updater0 "https://lists.example/social" w).2).
  set (w1 := (download_with_retry updater0 "https://mirror.example/social" None w0).2).
  set (w2 := (save_domains updater0 "social" (process_hosts_file text) w1).2).
  assert (all_fail updater0 ["https://lists.example/social"] w w0) as Hfail.
  { apply (all_fail_cons _ _ _ _ (RequestException "HTTPError: 404") w0 w0);
      [vm_compute; reflexivity | constructor]. }
  assert (download_with_retry updater0 "https://mirror.example/social" None w0
          = (Return (Some text), w1)) as Hok by (vm_compute; reflexivity).
  destruct (download_category_first_success updater0 "social") as [_ Hfirst].
  destruct (Hfirst ["https://lists.example/social"] "https://mirror.example/social"
              ["https://third.example/social"] text w w0 w1 Hfail Hok)
    as (Hloop & Hcat & _ & Hfile).
  assert (download_category updater0 "social" urls w = (Return true, w2)) as Hrun.
  { etrans; [exact Hcat |]. vm_compute; reflexivity. }
  exists w1, w2. split_and!; [exact Hloop | vm_compute; reflexivity | exact Hrun |].
  rewrite (Hfile w2 Hrun). vm_compute. reflexivity.
Defined.


(** Two categories, one with no source that answers: the run succeeds in
    part and stores its record. *)
Lemma update_all_lists_result_witness :
  let w := initial_world (one_good_source "https://lists.example/social" "a.example")
             (λ _, false) ∅ in
  let sources := [("social", ["https://lists.example/social"]);
                  ("ads", ["https://lists.example/ads"])] in
  ∃ oks w2 b,
    category_runs updater0 sources (mkdir (domains_path updater0) w).2 oks w2
    ∧ (update_all_lists updater0 sources w).1 = Return b
    ∧ (b = false ↔ ∀ c, (c, true) ∉ oks)
    ∧ files (update_all_lists updater0 sources w).2 !! metadata_file updater0
      = Some (Json {| last_update := now w; results := list_to_map oks;
                      total_categories := 2; successful_updates := successes oks |}).
Proof.
  intros w sources.
  assert (NoDup sources.*1) as Hnodup by (apply (bool_decide_unpack _); vm_compute; reflexivity).
  destruct (update_all_lists_result updater0 sources w Hnodup) as [_ Hrun].
  destruct (Hrun eq_refl) as (oks & w2 & Hruns & _ & _ & _ & Hreturns).
  destruct (Hreturns eq_refl eq_refl) as (b & Hb & Hfalse & Hfile & _).
  exists oks, w2, b. exact (conj Hruns (conj Hb (conj Hfalse Hfile))).
Defined.

(** A store whose only record is older than the window, and a store
    with no table of queries. *)
Lemma aggregate_no_data_is_empty_dict_witness :
  let old := {| client := "192.168.1.12"; domain := "example.com";
                timestamp := 1714000000; status := 2 |} in
  aggregate (λ _, "") (λ _, []) utc_host (parser_over (DbQueries [old])) 1 None = Return ∅
  ∧ aggregate (λ _, "") (λ _, []) utc_host (parser_over DbNoQueriesTable) 1 None = Return ∅.
Proof.
  intros old. split.
  - destruct (aggregate_no_data_is_empty_dict (λ _, "") (λ _, []) utc_host
                (parser_over (DbQueries [old])) 1 None) as (_ & _ & _ & _ & Hno & _).
    apply (Hno 1714435200).
    + exists 739005. split; vm_compute; reflexivity.
    + intros r Hr. apply list_elem_of_singleton in Hr. rewrite Hr. simpl. lia.
  - destruct (aggregate_no_data_is_empty_dict (λ _, "") (λ _, []) utc_host
                (parser_over DbNoQueriesTable) 1 None) as (Hunavailable & _).
    by apply Hunavailable.
Defined.

(** Ten records, seven of them with a status other than 2 (one with
    status 0). *)
Lemma generate_summary_blocked_witness :
  let df := process_row (parser_over DbMissing)
              <$> (query_from "192.168.1.12" <$> [1; 2; 0; 3; 2; 4; 5; 2; 9; 11]) in
  generate_summary (λ _, "") (λ _, []) df !! "blocked_queries" = Some (PyInt 7)
  ∧ generate_summary (λ _, "") (λ _, []) df !! "blocked_percentage" = Some (PyFloat 70%float).
Proof.
  intros df.
  destruct (generate_summary_blocked (λ _, "") (λ _, []) df) as (_ & _ & _ & Hseven).
  - discriminate.
  - apply Hseven; vm_compute; reflexivity.
Defined.

(** The filter [tv] on the records of the TV and of the router. *)
Lemma parse_logs_device_filter_witness :
  let tv := query_from "192.168.1.12" 1 in
  let router := query_from "192.168.1.1" 2 in
  let self := parser_over (DbQueries [tv; router]) in
  parse_logs utc_host self 1 (Some "tv") = Return [process_row self tv]
  ∧ (∃ matches, str_contains utc_host "tv" = Some matches
                ∧ ∀ name, matches name = true ↔ contains_ignoring_case name "tv")
  ∧ parse_logs utc_host self 1 (Some "tv|router")
    = Return [process_row self tv; process_row self router].
Proof.
  intros tv router self.
  assert (window_starts utc_host 1 1714435200) as Hstart
    by (exists 739005; split; vm_compute; reflexivity).
  assert (Forall (λ r, to_datetime_ok utc_host (timestamp r) = true)
            (window_of 1714435200 [tv; router])) as Hheld
    by (apply forallb_Forall; vm_compute; reflexivity).
  split_and!.
  - destruct (parse_logs_device_filter utc_host self 1 "tv" [tv; router] 1714435200)
      as (_ & _ & Hkept & _); [discriminate | reflexivity | exact Hstart |].
    destruct (Hkept (re_search [ReLit "t"; ReLit "v"]) eq_refl Hheld) as (Hrows & _).
    etrans; [exact Hrows |]. vm_compute. reflexivity.
  - destruct (parse_logs_device_filter utc_host self 1 "tv" [tv; router] 1714435200)
      as (_ & _ & _ & Hplain); [discriminate | reflexivity | exact Hstart |].
    apply Hplain. reflexivity.
  - destruct (parse_logs_device_filter utc_host self 1 "tv|router" [tv; router] 1714435200)
      as (_ & _ & Hkept & _); [discriminate | reflexivity | exact Hstart |].
    destruct (Hkept (λ s, PyStr.contains (PyStr.lower s) "tv"
                          || PyStr.contains (PyStr.lower s) "router") eq_refl Hheld)
      as (Hrows & _).
    etrans; [exact Hrows |]. vm_compute. reflexivity.
Defined.

(** A source in hosts format, with a comment, a repeated entry and the
    localhost entry. *)
Lemma download_category_file_content_witness :
  let text := "# social" +:+ newline +:+ "0.0.0.0 chat.example" +:+ newline
              +:+ "127.0.0.1 localhost" +:+ newline +:+ "0.0.0.0 app.example" +:+ newline
              +:+ "0.0.0.0 chat.example" in
  let w := initial_world (one_good_source "https://lists.example/social" text) (λ _, false) ∅ in
  let w' := (download_category updater0 "social" ["https://lists.example/social"] w).2 in
  ∃ text',
    files w' !! "/srv/domains/social_domains.txt"
    = Some (Text (file_text (sorted (process_hosts_file text'))))
    ∧ files w' !! "/srv/domains/social_domains.txt"
      = Some (Text (file_text ["app.example"; "chat.example"]))
    ∧ NoDup (sorted (process_hosts_file text'))
    ∧ Forall one_line (sorted (process_hosts_file text')).
Proof.
  intros text w w'.
  destruct (download_category_file_content updater0 "social"
              ["https://lists.example/social"] w w')
    as (url & text' & _ & _ & Hfile & _ & Hnodup & _ & Hlines & _).
  - vm_compute. reflexivity.
  - exists text'. split_and!; [exact Hfile | vm_compute; reflexivity | exact Hnodup | exact Hlines].
Defined.

(* ===================================================================== *)
(** ** More on download_with_retry *)
(* ===================================================================== *)

Lemma retry_loop_other (url : string) (retries attempt : Z) (rem : nat) (w : World)
    (e : exn) :
  net w (requests w) url = Raise e →
  (∀ msg, e ≠ RequestException msg) →
  retry_loop url retries (S rem) attempt w = (Raise e, advance w 1 [EvGet url]).
Proof.
  intros Hnet Hother. cbn [retry_loop]. unfold bind, try, session_get. rewrite Hnet.
  destruct e as [msg | | | | |]; try done. by destruct (Hother msg).
Qed.

(** X1.  An error of [session.get] that is not a [RequestException] is
    not retried: the call makes one request, sleeps for nothing and
    raises that error. *)
Theorem download_with_retry_other_error (self : DomainUpdater) (url : string)
    (retries : option Z) (w : World) (e : exn) :
  0 < default (max_retries self) retries →
  net w (requests w) url = Raise e →
  (∀ msg, e ≠ RequestException msg) →
  download_with_retry self url retries w = (Raise e, advance w 1 [EvGet url]).
Proof.
  intros Hpos Hnet Hother. unfold download_with_retry.
  destruct (Z.to_nat (default (max_retries self) retries)) as [|rem] eqn:Hrem; [lia |].
  by apply retry_loop_other.
Qed.

Lemma download_with_retry_other_error_witness :
  download_with_retry updater0 "https://lists.example/ads" None
    (initial_world broken_source (λ _, false) ∅)
  = (Raise (OtherException "UnicodeDecodeError"),
     advance (initial_world broken_source (λ _, false) ∅) 1 [EvGet "https://lists.example/ads"]).
Proof.
  apply download_with_retry_other_error; [simpl; lia | reflexivity | discriminate].
Defined.

Lemma retry_loop_shape (url : string) (r a : nat) (w : World) :
  (r = 0%nat ∧ retry_loop url (Z.of_nat (a + r)) r (Z.of_nat a) w = (Return None, w))
  ∨ ∃ k, (k < r)%nat
         ∧ (retry_loop url (Z.of_nat (a + r)) r (Z.of_nat a) w).2
           = advance w (S k) (failed_attempts url a k ++ [EvGet url]).
Proof.
  revert a w. induction r as [|r IH]; intros a w; [by left | right].
  destruct (net w (requests w) url) as [text | e] eqn:Hnet.
  { exists 0%nat. split; [lia |]. by rewrite (retry_loop_ok _ _ _ _ _ _ Hnet). }
  assert ((∃ msg, e = RequestException msg) ∨ (∀ msg, e ≠ RequestException msg))
    as [[msg ->] | Hother] by (destruct e; [left; eauto | right; done ..]).
  - destruct r as [|r].
    + exists 0%nat. split; [lia |]. rewrite (retry_loop_last _ _ _ _ _ _ Hnet); [done | lia].
    + rewrite (retry_loop_again _ _ _ _ _ _ Hnet) by lia.
      replace (Z.of_nat a + 1) with (Z.of_nat (S a)) by lia.
      replace (Z.of_nat (a + S (S r))) with (Z.of_nat (S a + S r)) by lia.
      destruct (IH (S a) (advance w 1 [EvGet url; EvSleep (2 ^ Z.of_nat a)]))
        as [[? _] | (k & Hk & ->)]; [lia |].
      exists (S k). split; [lia |].
      by rewrite advance_advance, failed_attempts_S, <- app_assoc.
  - exists 0%nat. split; [lia |]. by rewrite (retry_loop_other _ _ _ _ _ _ Hnet).
Qed.

Lemma total_sleep_failed_attempts (url : string) (first k : nat) :
  total_sleep (failed_attempts url first k) = 2 ^ Z.of_nat first * (2 ^ Z.of_nat k - 1).
Proof.
  unfold total_sleep. rewrite sleeps_of_failed_attempts. revert first.
  induction k as [|k IH]; intros first; [simpl; lia |].
  cbn [seq fmap list_fmap foldr]. rewrite IH.
  replace (Z.of_nat (S first)) with (Z.of_nat first + 1) by lia.
  replace (Z.of_nat (S k)) with (Z.of_nat k + 1) by lia.
  rewrite !Z.pow_add_r by lia. lia.
Qed.

(** X2.  Whatever the network answers, [download_with_retry] with [n]
    attempts allowed (0 when [retries] is negative) sends at most [n]
    requests, all to its URL; after [k] failed attempts that were
    retried it has slept [2^k - 1] seconds, so never more than
    [2^(n-1) - 1]. *)
Theorem download_with_retry_bounds (self : DomainUpdater) (url : string)
    (retries : option Z) (w : World) :
  let n := Z.to_nat (default (max_retries self) retries) in
  let w' := (download_with_retry self url retries w).2 in
  (n = 0%nat ∧ requests w' = requests w ∧ trace w' = trace w)
  ∨ ∃ k, (k < n)%nat
         ∧ requests w' = (S k + requests w)%nat
         ∧ trace w' = trace w ++ attempt_trace url k
         ∧ gets_of (attempt_trace url k) = replicate (S k) url
         ∧ total_sleep (attempt_trace url k) = 2 ^ Z.of_nat k - 1
         ∧ total_sleep (attempt_trace url k) ≤ 2 ^ (Z.of_nat n - 1) - 1.
Proof.
  intros n w'.
  unfold w', download_with_retry. fold n.
  destruct (decide (default (max_retries self) retries ≤ 0)) as [Hle | Hpos].
  { left. unfold n. rewrite (Z2Nat.nonpos _ Hle). by split. }
  replace (default (max_retries self) retries) with (Z.of_nat (0 + n)) by (unfold n; lia).
  destruct (retry_loop_shape url n 0 w) as [[Hn Hrun] | (k & Hk & Hrun)];
    change (Z.of_nat 0) with 0 in Hrun; rewrite Hrun; [by left | right].
  exists k. split_and!; [done | done | done | apply gets_of_attempt_trace | |].
  - unfold attempt_trace, total_sleep, sleeps_of. rewrite omap_app, app_nil_r.
    fold (sleeps_of (failed_attempts url 0 k)). fold (total_sleep (failed_attempts url 0 k)).
    rewrite total_sleep_failed_attempts. simpl. lia.
  - unfold attempt_trace, total_sleep, sleeps_of. rewrite omap_app, app_nil_r.
    fold (sleeps_of (failed_attempts url 0 k)). fold (total_sleep (failed_attempts url 0 k)).
    rewrite total_sleep_failed_attempts. simpl.
    assert (2 ^ Z.of_nat k ≤ 2 ^ (Z.of_nat n - 1)) by (apply Z.pow_le_mono_r; lia). lia.
Qed.

(* ===================================================================== *)
(** ** More on download_category *)
(* ===================================================================== *)

(** X3.  [download_category] lets no exception out: whatever the network
    answers or raises and whatever the disk refuses, it returns [True]
    or [False]. *)
Theorem download_category_never_raises (self : DomainUpdater) (category : string)
    (urls : list string) (w : World) :
  ∃ ok w', download_category self category urls w = (Return ok, w').
Proof.
  destruct (download_category_returns self category urls w) as (ok & w' & H & _).
  by exists ok, w'.
Qed.

Lemma fetch_and_normalize_world (self : DomainUpdater) (url : string) (w : World) :
  (fetch_and_normalize self url w).2 = (download_with_retry self url None w).2.
Proof.
  unfold fetch_and_normalize, bind.
  by destruct (download_with_retry self url None w) as [[[text |] | e] w1].
Qed.

Lemma download_with_retry_requests (self : DomainUpdater) (url : string) (w : World) :
  (requests (download_with_retry self url None w).2
   ≤ requests w + Z.to_nat (max_retries self))%nat.
Proof.
  unfold download_with_retry. simpl default.
  destruct (decide (max_retries self ≤ 0)) as [Hle | Hpos].
  { rewrite (Z2Nat.nonpos _ Hle). simpl. lia. }
  set (n := Z.to_nat (max_retries self)).
  replace (max_retries self) with (Z.of_nat (0 + n)) by (unfold n; lia).
  destruct (retry_loop_shape url n 0 w) as [[Hn Hrun] | (k & Hk & Hrun)];
    change (Z.of_nat 0) with 0 in Hrun; rewrite Hrun; simpl; lia.
Qed.

Lemma url_loop_requests (self : DomainUpdater) (urls : list string) (acc : gset string)
    (w : World) :
  (requests (url_loop self urls acc w).2
   ≤ requests w + length urls * Z.to_nat (max_retries self))%nat.
Proof.
  revert w. induction urls as [|url urls IH]; intros w; [simpl; lia |].
  cbn [url_loop]. unfold bind, try.
  pose proof (download_with_retry_requests self url w) as Hone.
  rewrite <- fetch_and_normalize_world in Hone.
  destruct (fetch_and_normalize self url w) as [[domains | e] w1]; simpl in *; [lia |].
  specialize (IH w1). lia.
Qed.

(** X4.  One category update sends at most [len(urls) * max_retries]
    requests (none when [max_retries] is not positive). *)
Theorem download_category_request_bound (self : DomainUpdater) (category : string)
    (urls : list string) (w : World) :
  (requests (download_category self category urls w).2
   ≤ requests w + length urls * Z.to_nat (max_retries self))%nat.
Proof.
  rewrite download_category_eq.
  pose proof (url_loop_requests self urls ∅ w) as Hloop.
  destruct (url_loop self urls ∅ w) as [[[ds []] | e] w1]; simpl in *; try done.
  pose proof (save_domains_net_untouched self category ds w1) as (_ & Hreq & _).
  lia.
Qed.

Lemma fetch_and_normalize_no_attempts (self : DomainUpdater) (url : string) (w : World) :
  max_retries self ≤ 0 →
  fetch_and_normalize self url w
  = (Raise (AttributeError "'NoneType' object has no attribute 'splitlines'"), w).
Proof.
  intros Hle. unfold fetch_and_normalize, download_with_retry, bind. simpl default.
  by rewrite (Z2Nat.nonpos _ Hle).
Qed.

(** X5.  An updater built with [max_retries] zero or negative cannot
    update anything: every category update returns [False], having sent
    no request, slept for nothing and written to no data file, however
    many URLs the category has. *)
Theorem download_category_without_retries (self : DomainUpdater) (category : string)
    (urls : list string) (w : World) :
  max_retries self ≤ 0 →
  download_category self category urls w = (Return false, w).
Proof.
  intros Hle. rewrite download_category_eq.
  assert (∀ acc, url_loop self urls acc w = (Return (acc, false), w)) as Hloop.
  { induction urls as [|url urls IH]; intros acc; [done |].
    cbn [url_loop]. unfold bind, try.
    by rewrite (fetch_and_normalize_no_attempts self url w Hle). }
  by rewrite Hloop.
Qed.

Lemma download_category_without_retries_witness :
  download_category {| domains_path := "/srv/domains"; max_retries := 0; timeout := 30 |}
    "social" ["https://lists.example/social"]
    (initial_world (one_good_source "https://lists.example/social" "a.example") (λ _, false) ∅)
  = (Return false,
     initial_world (one_good_source "https://lists.example/social" "a.example") (λ _, false) ∅).
Proof. apply download_category_without_retries. simpl. lia. Defined.

(* ===================================================================== *)
(** ** More on update_all_lists and its callers *)
(* ===================================================================== *)

(** What a run of [update_all_lists] that returned went through. *)
Lemma update_all_lists_returned (self : DomainUpdater)
    (sources : list (string * list string)) (w w' : World) (b : bool) :
  update_all_lists self sources w = (Return b, w') →
  ∃ w1 outcomes w2,
    files w1 = files w ∧ same_oracles w w1
    ∧ category_loop self sources ∅ w1 = (Return outcomes, w2)
    ∧ files w' = <[metadata_file self :=
                     Json {| last_update := now w; results := outcomes;
                             total_categories := Z.of_nat (length sources);
                             successful_updates := sum_values outcomes |}]>
                   (<[metadata_file self := Text ""]> (files w2))
    ∧ b = negb (sum_values outcomes =? 0).
Proof.
  rewrite update_all_lists_eq. unfold mkdir, open_w, json_dump.
  destruct (fs_op_cases id w) as [(_ & w1 & ->) | (_ & w1 & -> & Hfiles1 & Hs1)]; [done |].
  destruct (category_loop_returns self sources ∅ w1) as (outcomes & w2 & Hloop & Hs2 & _).
  rewrite Hloop.
  pose proof (same_oracles_trans _ _ _ Hs1 Hs2) as (_ & _ & Hnow2).
  destruct (fs_op_cases (<[metadata_file self := Text ""]>) w2)
    as [(_ & w3 & ->) | (_ & w3 & -> & Hfiles3 & _)]; [done |].
  match goal with |- context [fs_op ?f w3] =>
    destruct (fs_op_cases f w3) as [(_ & w4 & ->) | (_ & w4 & -> & Hfiles4 & _)] end; [done |].
  intros [= <- <-]. exists w1, outcomes, w2.
  split_and!; [done | done | done | | done].
  by rewrite Hfiles4, Hfiles3, Hnow2.
Qed.

Lemma sum_bools_le_length (l : list bool) :
  foldr (λ b acc, Z.b2z b + acc) 0 l ≤ Z.of_nat (length l).
Proof. induction l as [|[] l IH]; simpl length; simpl foldr; simpl Z.b2z; lia. Qed.

Lemma sum_values_le_size (outcomes : gmap string bool) :
  0 ≤ sum_values outcomes ≤ Z.of_nat (size outcomes).
Proof.
  unfold sum_values. split; [apply sum_bools_nonneg |].
  etrans; [apply sum_bools_le_length |]. by rewrite length_fmap, length_map_to_list.
Qed.

Lemma category_loop_size (self : DomainUpdater) (items : list (string * list string))
    (acc outcomes : gmap string bool) (w w' : World) :
  category_loop self items acc w = (Return outcomes, w') →
  (size outcomes ≤ size acc + length items)%nat.
Proof.
  revert acc w. induction items as [|[category urls] items IH]; intros acc w.
  - intros [= <- _]. simpl. lia.
  - cbn [category_loop]. unfold bind.
    destruct (download_category_returns self category urls w) as (ok & w1 & -> & _).
    intros Hrun. apply IH in Hrun. rewrite map_size_insert in Hrun.
    destruct (acc !! category); simpl in *; lia.
Qed.

(** X6.  The metadata record of a run that returned is consistent: the
    number of successful updates lies between 0 and the number of
    categories, it is positive exactly when the run returned [True],
    and the success map has an entry for every category and at most as
    many entries as there are categories. *)
Theorem update_all_lists_metadata_bounds (self : DomainUpdater)
    (CATEGORY_SOURCES : list (string * list string)) (w w' : World) (b : bool) :
  update_all_lists self CATEGORY_SOURCES w = (Return b, w') →
  ∃ m, files w' !! metadata_file self = Some (Json m)
       ∧ 0 ≤ successful_updates m ≤ total_categories m
       ∧ (b = true ↔ 0 < successful_updates m)
       ∧ Z.of_nat (size (results m)) ≤ total_categories m
       ∧ (∀ c, c ∈ CATEGORY_SOURCES.*1 → is_Some (results m !! c)).
Proof.
  intros Hrun.
  destruct (update_all_lists_returned _ _ _ _ _ Hrun)
    as (w1 & outcomes & w2 & _ & _ & Hloop & Hfiles & ->).
  eexists. split; [by rewrite Hfiles, lookup_insert_eq |]. simpl.
  pose proof (sum_values_le_size outcomes) as [Hlo Hhi].
  pose proof (category_loop_size _ _ _ _ _ _ Hloop) as Hsize.
  rewrite map_size_empty in Hsize.
  destruct (category_loop_returns self CATEGORY_SOURCES ∅ w1)
    as (outcomes' & w2' & Hloop' & _ & Hdom & _).
  rewrite Hloop in Hloop'. injection Hloop' as <- <-.
  split_and!; [done | lia | | lia |].
  - destruct (Z.eqb_spec (sum_values outcomes) 0); simpl; split; (done || lia).
  - intros c Hc. apply elem_of_dom. rewrite Hdom. set_solver.
Qed.

Lemma update_all_lists_metadata_bounds_witness :
  let run := update_all_lists updater0
               [("social", ["https://lists.example/social"]);
                ("ads", ["https://lists.example/ads"])]
               (initial_world (one_good_source "https://lists.example/social" "a.example")
                  (λ _, false) ∅) in
  ∃ m, files run.2 !! metadata_file updater0 = Some (Json m)
       ∧ 0 ≤ successful_updates m ≤ total_categories m
       ∧ 0 < successful_updates m
       ∧ Z.of_nat (size (results m)) ≤ total_categories m.
Proof.
  intros run.
  destruct (update_all_lists_metadata_bounds updater0
              [("social", ["https://lists.example/social"]);
               ("ads", ["https://lists.example/ads"])]
              (initial_world (one_good_source "https://lists.example/social" "a.example")
                 (λ _, false) ∅) run.2 true)
    as (m & Hfile & Hbounds & Hpos & Hsize & _).
  - vm_compute. reflexivity.
  - exists m. refine (conj Hfile (conj Hbounds (conj _ Hsize))). by apply Hpos.
Defined.

Lemma successes_positive (oks : list (string * bool)) :
  successes oks ≠ 0 → 0 < successes oks ∧ ∃ c, (c, true) ∈ oks.
Proof.
  unfold successes. intros Hne.
  destruct (filter (λ co : string * bool, co.2 = true) oks) as [|[c ok] l] eqn:Hfilter;
    [done |].
  split; [simpl length; lia |]. exists c.
  assert ((c, ok) ∈ filter (λ co : string * bool, co.2 = true) oks) as Hin
    by (rewrite Hfilter; apply elem_of_cons; by left).
  apply list_elem_of_filter in Hin as [Hok Hin]. simpl in Hok. by subst ok.
Qed.

(** What a run of [update_all_lists] that returned [True] went through:
    the categories were updated in turn, one of them with success, and
    the record of these updates is in the metadata file. *)
Lemma update_all_lists_true (self : DomainUpdater) (sources : list (string * list string))
    (w w' : World) :
  NoDup sources.*1 →
  update_all_lists self sources w = (Return true, w') →
  ∃ oks w2 c,
    category_runs self sources (mkdir (domains_path self) w).2 oks w2
    ∧ (c, true) ∈ oks
    ∧ 0 < successes oks
    ∧ files w' !! metadata_file self
      = Some (Json {| last_update := now w; results := list_to_map oks;
                      total_categories := Z.of_nat (length sources);
                      successful_updates := successes oks |}).
Proof.
  intros Hnodup Hrun.
  destruct (disk_fault w (io_ops w)) eqn:Hmkdir.
  { rewrite update_all_lists_eq in Hrun. unfold mkdir in Hrun.
    destruct (fs_op_fault id w Hmkdir) as (w1 & Hop & _). by rewrite Hop in Hrun. }
  destruct (update_all_lists_after_mkdir self sources w Hnodup Hmkdir)
    as (oks & w2 & Hruns & Hkeys & _ & Heq).
  rewrite Heq in Hrun. unfold open_w, json_dump in Hrun.
  destruct (fs_op_cases (<[metadata_file self := Text ""]>) w2)
    as [(_ & w3 & Hop) | (_ & w3 & Hop & _ & _)]; rewrite Hop in Hrun; [done |].
  match type of Hrun with context [fs_op ?f w3] =>
    destruct (fs_op_cases f w3) as [(_ & w4 & Hop') | (_ & w4 & Hop' & Hfiles & _)] end;
    rewrite Hop' in Hrun; [done |].
  injection Hrun as Hb <-.
  destruct (Z.eqb_spec (successes oks) 0) as [| Hne]; [done |].
  destruct (successes_positive oks Hne) as [Hpos [c Hc]].
  exists oks, w2, c. split_and!; [done | done | done |].
  by rewrite Hfiles, lookup_insert_eq.
Qed.

(** X8.  [update_domains] lets no exception out.  When the import of
    the updater fails it returns [False] and nothing has been done;
    otherwise it returns what [update_all_lists] returned, and [False]
    when that call raised (the directory could not be made, or the
    metadata could not be written).  When it returns [True], a category
    was updated with success in this run and the record of the run is in
    the metadata file. *)
Theorem update_domains_never_raises (imported : outcome unit) (DOMAINS_DIR : string)
    (CATEGORY_SOURCES : list (string * list string)) (w : World) :
  NoDup CATEGORY_SOURCES.*1 →
  let self := DomainUpdater_init DOMAINS_DIR in
  ∃ b w',
    update_domains imported DOMAINS_DIR CATEGORY_SOURCES w = (Return b, w')
    ∧ (∀ e, imported = Raise e → b = false ∧ w' = w)
    ∧ (imported = Return tt →
       w' = (update_all_lists self CATEGORY_SOURCES w).2
       ∧ (b = true ↔ (update_all_lists self CATEGORY_SOURCES w).1 = Return true))
    ∧ (b = true →
       ∃ oks w2 c,
         category_runs self CATEGORY_SOURCES (mkdir (domains_path self) w).2 oks w2
         ∧ (c, true) ∈ oks
         ∧ files w' !! metadata_file self
           = Some (Json {| last_update := now w; results := list_to_map oks;
                           total_categories := Z.of_nat (length CATEGORY_SOURCES);
                           successful_updates := successes oks |})).
Proof.
  intros Hnodup self. unfold update_domains, bind, try. fold self.
  destruct imported as [[] | e0].
  - destruct (update_all_lists self CATEGORY_SOURCES w) as [[b | e] w'] eqn:Hrun; simpl.
    + exists b, w'. split_and!; [done | done | intros _; split; [done | split; congruence] |].
      intros ->.
      destruct (update_all_lists_true self CATEGORY_SOURCES w w' Hnodup Hrun)
        as (oks & w2 & c & Hruns & Hc & _ & Hfile).
      by exists oks, w2, c.
    + exists false, w'. split_and!; [done | done | intros _; split; [done | split; done] | done].
  - exists false, w. split_and!; [done | by intros e [= <-] | done | done].
Qed.

Lemma update_domains_never_raises_witness :
  let w := initial_world (one_good_source "https://lists.example/social" "a.example")
             (λ _, false) ∅ in
  let sources := [("social", ["https://lists.example/social"]);
                  ("ads", ["https://lists.example/ads"])] in
  ∃ b w', update_domains (Return tt) "/srv/domains" sources w = (Return b, w')
          ∧ (b = true ↔ (update_all_lists (DomainUpdater_init "/srv/domains") sources w).1
                        = Return true).
Proof.
  intros w sources.
  assert (NoDup sources.*1) as Hnodup by (apply (bool_decide_unpack _); vm_compute; reflexivity).
  destruct (update_domains_never_raises (Return tt) "/srv/domains" sources w Hnodup)
    as (b & w' & Hrun & _ & Hreturned & _).
  exists b, w'. exact (conj Hrun (proj2 (Hreturned eq_refl))).
Defined.

(** X9.  The exit status of [main] of domain_updater.py is 0 or 1, and
    it is 0 exactly when [update_all_lists] returned [True]: then a
    category was updated with success in this run, and the record of the
    run is in the metadata file.  With no category configured the status
    is 1. *)
Theorem updater_main_exit_status (DOMAINS_DIR : string)
    (CATEGORY_SOURCES : list (string * list string)) (w : World) :
  NoDup CATEGORY_SOURCES.*1 →
  let self := DomainUpdater_init DOMAINS_DIR in
  let status := (updater_main DOMAINS_DIR CATEGORY_SOURCES w).1 in
  (status = 0 ∨ status = 1)
  ∧ (status = 0 ↔ (update_all_lists self CATEGORY_SOURCES w).1 = Return true)
  ∧ (status = 0 →
     ∃ oks w2 c,
       category_runs self CATEGORY_SOURCES (mkdir (domains_path self) w).2 oks w2
       ∧ (c, true) ∈ oks
       ∧ files (updater_main DOMAINS_DIR CATEGORY_SOURCES w).2 !! metadata_file self
         = Some (Json {| last_update := now w; results := list_to_map oks;
                         total_categories := Z.of_nat (length CATEGORY_SOURCES);
                         successful_updates := successes oks |}))
  ∧ (CATEGORY_SOURCES = [] → status = 1).
Proof.
  intros Hnodup self status. unfold status, updater_main. fold self.
  destruct (update_all_lists self CATEGORY_SOURCES w) as [[[] | e] w'] eqn:Hrun; simpl.
  - destruct (update_all_lists_true self CATEGORY_SOURCES w w' Hnodup Hrun)
      as (oks & w2 & c & Hruns & Hc & _ & Hfile).
    split_and!; [by left | done | intros _; by exists oks, w2, c |].
    intros ->. inversion Hruns; subst. by apply elem_of_nil in Hc.
  - split_and!; [by right | split; done | done | done].
  - split_and!; [by right | split; done | done | done].
Qed.

Lemma updater_main_exit_status_witness :
  let w := initial_world (one_good_source "https://lists.example/social" "a.example")
             (λ _, false) ∅ in
  let sources := [("social", ["https://lists.example/social"]);
                  ("ads", ["https://lists.example/ads"])] in
  (updater_main "/srv/domains" sources w).1 = 0.
Proof.
  intros w sources.
  assert (NoDup sources.*1) as Hnodup by (apply (bool_decide_unpack _); vm_compute; reflexivity).
  destruct (updater_main_exit_status "/srv/domains" sources w Hnodup) as (_ & Hzero & _).
  apply Hzero. vm_compute. reflexivity.
Defined.

(* ===================================================================== *)
(** ** More on the string methods *)
(* ===================================================================== *)

Lemma lower_char_idem (c : ascii) : PyStr.lower_char (PyStr.lower_char c) = PyStr.lower_char c.
Proof. destruct c as [[] [] [] [] [] [] [] []]; reflexivity. Qed.

Lemma isspace_lower_char (c : ascii) : PyStr.isspace (PyStr.lower_char c) = PyStr.isspace c.
Proof. destruct c as [[] [] [] [] [] [] [] []]; reflexivity. Qed.

Lemma lower_idem (s : string) : PyStr.lower (PyStr.lower s) = PyStr.lower s.
Proof. induction s as [|c s IH]; simpl; [done | by rewrite lower_char_idem, IH]. Qed.

Lemma lower_app (a b : string) : PyStr.lower (a +:+ b) = PyStr.lower a +:+ PyStr.lower b.
Proof. induction a as [|c a IH]; simpl; [done | by rewrite IH]. Qed.

Lemma lower_length (s : string) : String.length (PyStr.lower s) = String.length s.
Proof. induction s as [|c s IH]; simpl; [done | by rewrite IH]. Qed.

Lemma lstrip_lower (s : string) : PyStr.lstrip (PyStr.lower s) = PyStr.lower (PyStr.lstrip s).
Proof.
  induction s as [|c s IH]; simpl; [done |].
  rewrite isspace_lower_char. by destruct (PyStr.isspace c).
Qed.

Lemma rstrip_lower (s : string) : PyStr.rstrip (PyStr.lower s) = PyStr.lower (PyStr.rstrip s).
Proof.
  induction s as [|c s IH]; simpl; [done |].
  rewrite IH, isspace_lower_char.
  destruct (PyStr.rstrip s); simpl; [by destruct (PyStr.isspace c) | done].
Qed.

Lemma strip_lower (s : string) : PyStr.strip (PyStr.lower s) = PyStr.lower (PyStr.strip s).
Proof. unfold PyStr.strip. by rewrite lstrip_lower, rstrip_lower. Qed.

Lemma lstrip_starts_clean (s : string) : starts_clean (PyStr.lstrip s).
Proof.
  induction s as [|c s IH]; simpl; [done |].
  by destruct (PyStr.isspace c) eqn:Hc.
Qed.

Lemma lstrip_of_starts_clean (s : string) : starts_clean s → PyStr.lstrip s = s.
Proof. destruct s as [|c s]; simpl; [done | by intros ->]. Qed.

Lemma rstrip_starts_clean (s : string) : starts_clean s → starts_clean (PyStr.rstrip s).
Proof.
  destruct s as [|c s]; simpl; [done |]. intros Hc.
  destruct (PyStr.rstrip s); [by rewrite Hc | done].
Qed.

Lemma rstrip_idem (s : string) : PyStr.rstrip (PyStr.rstrip s) = PyStr.rstrip s.
Proof.
  induction s as [|c s IH]; [done |]. cbn [PyStr.rstrip].
  destruct (PyStr.rstrip s) as [|c' r] eqn:Hr.
  - destruct (PyStr.isspace c) eqn:Hc; [done |]. simpl. by rewrite Hc.
  - cbn [PyStr.rstrip]. cbn [PyStr.rstrip] in IH.
    destruct (PyStr.rstrip r) as [|c'' r'] eqn:Hr'.
    + destruct (PyStr.isspace c'); [discriminate | by injection IH as <-].
    + by injection IH as <-.
Qed.

Lemma strip_starts_clean (s : string) : starts_clean (PyStr.strip s).
Proof. apply rstrip_starts_clean, lstrip_starts_clean. Qed.

Lemma strip_idem (s : string) : PyStr.strip (PyStr.strip s) = PyStr.strip s.
Proof.
  unfold PyStr.strip at 1. rewrite lstrip_of_starts_clean by apply strip_starts_clean.
  unfold PyStr.strip. apply rstrip_idem.
Qed.

Lemma app_inv_tail_length (a a' b b' : string) :
  a +:+ b = a' +:+ b' → String.length a = String.length a' → b = b'.
Proof.
  revert a'. induction a as [|c a IH]; intros [|c' a'] Heq Hlen; simpl in *;
    try done. injection Heq as _ Heq. apply (IH a'); [done | lia].
Qed.

(* ===================================================================== *)
(** ** More on classification *)
(* ===================================================================== *)

(** X10.  Classification ignores the case of its input and the white
    space around it: a domain, its lower-case form and its trimmed form
    get the same category, and so do any two inputs that agree once
    lowercased and trimmed. *)
Theorem categorize_domain_ignores_case_and_space (self : LogParser) (d : string) :
  categorize_domain self (PyStr.lower d) = categorize_domain self d
  ∧ categorize_domain self (PyStr.strip d) = categorize_domain self d
  ∧ ∀ d', PyStr.lower (PyStr.strip d') = PyStr.lower (PyStr.strip d) →
          categorize_domain self d' = categorize_domain self d.
Proof.
  unfold categorize_domain. split_and!.
  - by rewrite lower_idem.
  - by rewrite strip_lower, strip_idem, <- strip_lower.
  - intros d' Heq. by rewrite !strip_lower, Heq.
Qed.

Lemma normalized_is_lower (input : string) :
  PyStr.lower (PyStr.strip (PyStr.lower input)) = PyStr.strip (PyStr.lower input).
Proof. by rewrite <- strip_lower, lower_idem. Qed.

Lemma subdomain_or_equal_lower (x d : string) :
  PyStr.lower x = x → subdomain_or_equal x d → PyStr.lower d = d.
Proof.
  intros Hx [-> | [label ->]]; [done |].
  rewrite !lower_app in Hx.
  apply app_inv_tail_length in Hx; [| apply lower_length].
  by apply app_inv_tail_length in Hx.
Qed.

Lemma categorize_loop_ext (x : string) (items items' : list (string * gset string)) :
  Forall2 (λ cd cd', cd.1 = cd'.1 ∧ (domain_matches x cd.2 ↔ domain_matches x cd'.2))
    items items' →
  categorize_loop x items = categorize_loop x items'.
Proof.
  induction 1 as [|[c ds] [c' ds'] items items' [Hname Hmatch] _ IH]; [done |].
  simpl in Hname, Hmatch. subst c'. cbn [categorize_loop].
  pose proof (category_hit_spec x ds) as Hds. pose proof (category_hit_spec x ds') as Hds'.
  destruct (bool_decide (x ∈ ds)) eqn:H1, (scan_domains x (elements ds)) eqn:H2,
    (bool_decide (x ∈ ds')) eqn:H3, (scan_domains x (elements ds')) eqn:H4;
    simpl in *; try done; exfalso;
    (by (assert (false = true) by (apply Hds', Hmatch, Hds; done))
     || by (assert (false = true) by (apply Hds, Hmatch, Hds'; done))).
Qed.

(** X11.  A stored domain that is not in lower case never decides a
    classification: taking it out of every category changes the category
    of no input.  (The lists are stored as the sources spell them, and
    only the input is lowercased.) *)
Theorem categorize_domain_ignores_capitalized_entries (self : LogParser) (d input : string) :
  PyStr.lower d ≠ d →
  categorize_domain (without_domain d self) input = categorize_domain self input.
Proof.
  intros Hd. unfold categorize_domain, without_domain. simpl.
  set (x := PyStr.strip (PyStr.lower input)).
  apply categorize_loop_ext. apply Forall2_fmap_l, Forall_Forall2_diag, Forall_forall.
  intros [c ds] _. simpl. split; [done |].
  assert (∀ d', subdomain_or_equal x d' → d' ≠ d) as Hother.
  { intros d' Hsub ->. apply Hd. apply (subdomain_or_equal_lower x); [| done].
    apply normalized_is_lower. }
  unfold domain_matches. split.
  - intros [Hin | (d' & Hin & Hsub)]; [left | right; exists d']; set_solver.
  - intros [Hin | (d' & Hin & Hsub)].
    + left. apply elem_of_difference. split; [done |].
      apply not_elem_of_singleton, Hother. by left.
    + right. exists d'. split; [| done]. apply elem_of_difference. split; [done |].
      by apply not_elem_of_singleton, Hother.
Qed.

Lemma categorize_domain_ignores_capitalized_entries_witness :
  categorize_domain (without_domain "Ads.Example.COM" (parser_over DbMissing)) "ads.example.com"
  = categorize_domain (parser_over DbMissing) "ads.example.com".
Proof. apply categorize_domain_ignores_capitalized_entries. discriminate. Defined.

Lemma subdomain_or_equal_deeper (x d label : string) :
  subdomain_or_equal x d → subdomain_or_equal (label +:+ "." +:+ x) d.
Proof.
  intros [-> | [label' ->]]; right.
  - by exists label.
  - exists (label +:+ "." +:+ label'). by rewrite !append_assoc.
Qed.

(** X12.  Every subdomain of a categorized domain is categorized: when a
    category matches an input, an input with further labels in front
    gets a category that matches it, that one or an earlier one. *)
Theorem categorize_domain_subdomain (self : LogParser) (input deeper label : string) :
  PyStr.strip (PyStr.lower deeper) = label +:+ "." +:+ PyStr.strip (PyStr.lower input) →
  (∃ cd, cd ∈ categories self ∧ domain_matches (PyStr.strip (PyStr.lower input)) cd.2) →
  ∃ before category domains after,
    categories self = before ++ (category, domains) :: after
    ∧ categorize_domain self deeper = category
    ∧ domain_matches (PyStr.strip (PyStr.lower deeper)) domains
    ∧ Forall (λ cd, ¬ domain_matches (PyStr.strip (PyStr.lower input)) cd.2) before.
Proof.
  intros Hdeeper (cd & Hcd & Hmatch). unfold categorize_domain. rewrite Hdeeper.
  set (x := PyStr.strip (PyStr.lower input)) in *.
  assert (∀ ds, domain_matches x ds → domain_matches (label +:+ "." +:+ x) ds) as Hup.
  { intros ds [Hin | (d & Hin & Hsub)]; right.
    - exists x. split; [done |]. right. by exists label.
    - exists d. split; [done |]. by apply subdomain_or_equal_deeper. }
  destruct (categorize_loop_spec (label +:+ "." +:+ x) (categories self))
    as [(before & c & ds & after & Hsplit & Hbefore & Hds & Hres) | [Hnone _]].
  - exists before, c, ds, after. split_and!; [done | done | done |].
    eapply Forall_impl; [exact Hbefore |]. intros cd' Hno Hyes. by apply Hno, Hup.
  - rewrite Forall_forall in Hnone. destruct (Hnone cd Hcd). by apply Hup.
Qed.

Lemma categorize_domain_subdomain_witness :
  ∃ before category domains after,
    categories (parser_over DbMissing) = before ++ (category, domains) :: after
    ∧ categorize_domain (parser_over DbMissing) "CDN.Ads.Example.com" = category
    ∧ category = "ads".
Proof.
  destruct (categorize_domain_subdomain (parser_over DbMissing) "example.com"
              "CDN.Ads.Example.com" "cdn.ads")
    as (before & category & domains & after & Hsplit & Hres & _).
  - reflexivity.
  - exists ("ads", {["example.com"]}). split; [apply list_elem_of_singleton; reflexivity |].
    left. by apply elem_of_singleton.
  - exists before, category, domains, after. split_and!; [exact Hsplit | exact Hres |].
    rewrite <- Hres. vm_compute. reflexivity.
Defined.

(* ===================================================================== *)
(** ** More on process_hosts_file *)
(* ===================================================================== *)

Lemma process_line_union (domains : gset string) (line : string) :
  process_line domains line = process_line ∅ line ∪ domains.
Proof.
  unfold process_line.
  destruct (String.eqb (PyStr.strip line) "" || PyStr.startswith (PyStr.strip line) "#");
    [set_solver |].
  destruct (PyStr.split (PyStr.strip line)) as [|part0 [|part1 parts]]; [set_solver.. |].
  destruct (bool_decide _); [| set_solver].
  destruct (negb _); set_solver.
Qed.

Lemma foldl_process_line (lines : list string) (acc : gset string) (d : string) :
  d ∈ foldl process_line acc lines
  ↔ d ∈ acc ∨ ∃ line, line ∈ lines ∧ d ∈ process_line ∅ line.
Proof.
  revert acc. induction lines as [|line lines IH]; intros acc; simpl.
  - split; [by left | intros [? | (l & Hl & _)]; [done | by apply elem_of_nil in Hl]].
  - rewrite IH, process_line_union, elem_of_union. split.
    + intros [[Hd | Hd] | (l & Hl & Hd)].
      * right. exists line. split; [apply elem_of_cons; by left | done].
      * by left.
      * right. exists l. split; [apply elem_of_cons; by right | done].
    + intros [Hd | (l & [-> | Hl]%elem_of_cons & Hd)].
      * left. by right.
      * left. by left.
      * right. by exists l.
Qed.

(** X13.  [process_hosts_file] works line by line: a domain is in the
    result exactly when some line of the text gives it on its own.  So
    the order of the lines and their repetition do not matter: two texts
    with the same lines give the same set. *)
Theorem process_hosts_file_by_line (content : string) :
  (∀ d, d ∈ process_hosts_file content
        ↔ ∃ line, line ∈ PyStr.splitlines content ∧ d ∈ process_line ∅ line)
  ∧ ∀ content', (∀ line, line ∈ PyStr.splitlines content ↔ line ∈ PyStr.splitlines content') →
                process_hosts_file content' = process_hosts_file content.
Proof.
  assert (∀ text d, d ∈ process_hosts_file text
            ↔ ∃ line, line ∈ PyStr.splitlines text ∧ d ∈ process_line ∅ line) as Hchar.
  { intros text d. unfold process_hosts_file. rewrite foldl_process_line. split.
    - intros [Hd | H]; [by apply not_elem_of_empty in Hd | done].
    - by right. }
  split; [apply Hchar |].
  intros content' Hlines. apply set_eq. intros d. rewrite !Hchar.
  split; intros (line & Hl & Hd); exists line; (split; [by apply Hlines | done]).
Qed.

Lemma split_go_space_free (cur s tok : string) :
  space_free cur → tok ∈ PyStr.split_go cur s → space_free tok.
Proof.
  revert cur. induction s as [|x s IH]; intros cur Hcur; cbn [PyStr.split_go].
  - destruct (String.eqb cur ""); [by intros ?%elem_of_nil |].
    by intros ->%list_elem_of_singleton.
  - destruct (PyStr.isspace x) eqn:Hx.
    + destruct (String.eqb cur "").
      * apply IH. by intros c [].
      * intros [-> | Hin]%elem_of_cons; [done |]. revert Hin. apply IH. by intros c [].
    + apply IH. intros c [Hc | [-> | []]]%mentions_app; [by apply Hcur | done].
Qed.

Lemma rstrip_space_free (s : string) : space_free s → PyStr.rstrip s = s.
Proof.
  induction s as [|c s IH]; intros Hs; [done |]. cbn [PyStr.rstrip].
  rewrite IH by (intros c' Hc'; apply Hs; by right).
  destruct s; [| done]. rewrite (Hs c); [done | by left].
Qed.

Lemma strip_space_free (s : string) : space_free s → PyStr.strip s = s.
Proof.
  intros Hs. unfold PyStr.strip. rewrite lstrip_of_starts_clean.
  - by apply rstrip_space_free.
  - destruct s as [|c s]; [done |]. apply Hs. by left.
Qed.

Lemma process_line_stripped (domains : gset string) (line d : string) :
  d ∈ process_line domains line → d ∈ domains ∨ PyStr.strip d = d.
Proof.
  unfold process_line.
  destruct (String.eqb (PyStr.strip line) "" || PyStr.startswith (PyStr.strip line) "#");
    [by left |].
  assert (d ∈ ({[PyStr.strip line]} ∪ domains : gset string) → d ∈ domains ∨ PyStr.strip d = d)
    as Hbare.
  { intros [->%elem_of_singleton | ?]%elem_of_union; [right; apply strip_idem | by left]. }
  destruct (PyStr.split (PyStr.strip line)) as [|part0 [|part1 parts]] eqn:Hparts;
    [done | done |].
  destruct (bool_decide _); [| done].
  destruct (negb _); [| by left].
  intros [->%elem_of_singleton | ?]%elem_of_union; [right | by left].
  apply strip_space_free. apply (split_go_space_free "" (PyStr.strip line)); [by intros c [] |].
  fold (PyStr.split (PyStr.strip line)). rewrite Hparts. set_solver.
Qed.

(** X14.  Every domain that [process_hosts_file] gives is trimmed: it is
    not empty, carries no white space at either end and holds no line
    boundary. *)
Theorem process_hosts_file_domains_trimmed (content d : string) :
  d ∈ process_hosts_file content →
  d ≠ "" ∧ PyStr.strip d = d ∧ one_line d.
Proof.
  intros Hd. pose proof (process_hosts_file_one_line content d Hd) as Hline.
  split_and!; [apply Hline | | done].
  unfold process_hosts_file in Hd. apply foldl_process_line in Hd as [Hd | (line & _ & Hd)].
  - by apply not_elem_of_empty in Hd.
  - apply process_line_stripped in Hd as [Hd | ?]; [by apply not_elem_of_empty in Hd | done].
Qed.

Lemma process_hosts_file_domains_trimmed_witness :
  PyStr.strip "tracker.example" = "tracker.example" ∧ one_line "tracker.example".
Proof.
  destruct (process_hosts_file_domains_trimmed
              ("  tracker.example  " +:+ newline +:+ "0.0.0.0   ads.example.com")
              "tracker.example") as (_ & Hstrip & Hline).
  - apply (bool_decide_unpack _). vm_compute. exact I.
  - split; [exact Hstrip | exact Hline].
Defined.

(* ===================================================================== *)
(** ** From the updater's file back to the parser's categories *)
(* ===================================================================== *)

Lemma not_linebreak_not_newline (c : ascii) :
  PyStr.is_linebreak c = false → Ascii.eqb c "010" = false ∧ Ascii.eqb c "013" = false.
Proof.
  intros Hc. split.
  - destruct (Ascii.eqb_spec c "010") as [-> |]; [discriminate | done].
  - destruct (Ascii.eqb_spec c "013") as [-> |]; [discriminate | done].
Qed.

Lemma file_lines_go_line (cur d rest : string) :
  (∀ c, mentions d c → PyStr.is_linebreak c = false) →
  file_lines_go cur (d +:+ String "010" rest)
  = (cur +:+ d +:+ newline) :: file_lines_go "" rest.
Proof.
  revert cur. induction d as [|c d IH]; intros cur Hd.
  - reflexivity.
  - destruct (not_linebreak_not_newline c (Hd c (or_introl eq_refl))) as [Hlf Hcr].
    change (String c d +:+ String "010" rest) with (String c (d +:+ String "010" rest)).
    cbn [file_lines_go]. rewrite Hlf, Hcr, IH by (intros c' Hc'; apply Hd; by right).
    by rewrite !append_assoc.
Qed.

Lemma file_lines_file_text (lines : list string) :
  Forall one_line lines →
  file_lines (file_text lines) = (λ d, d +:+ newline) <$> lines.
Proof.
  unfold file_lines. induction 1 as [|d lines [_ Hd] _ IH]; [done |].
  rewrite file_text_cons, file_lines_go_line by done. by rewrite IH.
Qed.

Lemma rstrip_app_newline (s : string) : PyStr.rstrip (s +:+ newline) = PyStr.rstrip s.
Proof.
  induction s as [|c s IH]; [done |].
  change (String c s +:+ newline) with (String c (s +:+ newline)).
  cbn [PyStr.rstrip]. by rewrite IH.
Qed.

Lemma strip_line_of_trimmed (d : string) :
  d ≠ "" → PyStr.strip d = d →
  PyStr.strip (d +:+ newline) = d
  ∧ PyStr.startswith (d +:+ newline) "#" = PyStr.startswith d "#".
Proof.
  intros Hne Hstrip. destruct d as [|c d]; [done |].
  pose proof (strip_starts_clean (String c d)) as Hclean. rewrite Hstrip in Hclean.
  split.
  - unfold PyStr.strip in *.
    change (String c d +:+ newline) with (String c (d +:+ newline)).
    rewrite lstrip_of_starts_clean by done.
    rewrite lstrip_of_starts_clean in Hstrip by done.
    change (String c (d +:+ newline)) with (String c d +:+ newline).
    by rewrite rstrip_app_newline.
  - unfold PyStr.startswith.
    change (String c d +:+ newline) with (String c (d +:+ newline)).
    by rewrite !prefix_cons, !prefix_nil.
Qed.

Lemma load_domains_file_text (lines : list string) :
  Forall (λ d, PyStr.strip d = d ∧ one_line d) lines →
  load_domains (file_text lines)
  = list_to_set (filter (λ d, PyStr.startswith d "#" = false) lines).
Proof.
  intros Hlines. unfold load_domains.
  rewrite file_lines_file_text by (eapply Forall_impl; [exact Hlines | by intros d [_ ?]]).
  f_equal. induction Hlines as [|d lines [Hstrip [Hne Hline]] _ IH]; [done |].
  destruct (strip_line_of_trimmed d Hne Hstrip) as [Hs Hstart].
  rewrite fmap_cons, !filter_cons.
  destruct (decide (PyStr.startswith d "#" = false)) as [Hd | Hd].
  - rewrite decide_True by (by rewrite Hs, Hstart). by rewrite fmap_cons, Hs, IH.
  - rewrite decide_False by (rewrite Hstart; tauto). done.
Qed.

Lemma load_domains_of_normalized (text : string) :
  load_domains (file_text (sorted (process_hosts_file text)))
  = filter (λ d, PyStr.startswith d "#" = false) (process_hosts_file text).
Proof.
  destruct (sorted_spec (process_hosts_file text)) as (_ & _ & Hmem).
  rewrite load_domains_file_text.
  - apply set_eq. intros d.
    rewrite elem_of_list_to_set, list_elem_of_filter, elem_of_filter, Hmem. done.
  - apply Forall_forall. intros d Hd. apply Hmem in Hd.
    unfold process_hosts_file in Hd.
    pose proof (process_hosts_file_one_line text d Hd) as Hline. split; [| done].
    apply foldl_process_line in Hd as [Hd | (line & _ & Hd)];
      [by apply not_elem_of_empty in Hd |].
    apply process_line_stripped in Hd as [Hd | ?]; [by apply not_elem_of_empty in Hd | done].
Qed.

(** X15.  What the updater writes, the parser reads back: loading a file
    made of the sorted domains of a normalized source gives that domain
    set again, less the domains that begin with [#], which the loader
    takes for comments. *)
Theorem load_domains_round_trip (text : string) :
  load_domains (file_text (sorted (process_hosts_file text)))
  = filter (λ d, PyStr.startswith d "#" = false) (process_hosts_file text).
Proof. apply load_domains_of_normalized. Qed.

Lemma app_length (a b : string) :
  String.length (a +:+ b) = (String.length a + String.length b)%nat.
Proof. induction a as [|c a IH]; simpl; [done | by rewrite IH]. Qed.

Lemma substring_app_prefix (a b : string) : String.substring 0 (String.length a) (a +:+ b) = a.
Proof.
  induction a as [|c a IH]; simpl; [by destruct b | by rewrite IH].
Qed.

Lemma stem_txt (s : string) : stem (s +:+ ".txt") = s.
Proof.
  unfold stem. rewrite app_length. simpl String.length.
  replace (String.length s + 4 - 4)%nat with (String.length s) by lia.
  apply substring_app_prefix.
Qed.

Lemma prefix_domains_straddle (t : string) :
  String.prefix "_domains" (t +:+ "_domains") = true →
  t = "" ∨ String.prefix "_domains" t = true.
Proof.
  intros H. apply prefix_spec in H as [q Hq].
  destruct t as [|c1 [|c2 [|c3 [|c4 [|c5 [|c6 [|c7 [|c8 t]]]]]]]];
    [by left | simpl in Hq; discriminate.. |].
  right. simpl in Hq. injection Hq as -> -> -> -> -> -> -> -> _.
  apply prefix_spec. by exists t.
Qed.

Lemma replace_domains_suffix (category : string) :
  PyStr.contains category "_domains" = false →
  replace (category +:+ "_domains") "_domains" "" = category.
Proof.
  unfold replace. induction category as [|c category IH]; intros Hno; [reflexivity |].
  change (PyStr.contains (String c category) "_domains")
    with (String.prefix "_domains" (String c category) || PyStr.contains category "_domains")
    in Hno.
  apply orb_false_iff in Hno as [Hhere Hlater].
  change (String c category +:+ "_domains") with (String c (category +:+ "_domains")).
  cbn [replace_go].
  destruct (String.prefix "_domains" (String c (category +:+ "_domains"))) eqn:Hp.
  - change (String c (category +:+ "_domains")) with (String c category +:+ "_domains") in Hp.
    apply prefix_domains_straddle in Hp as [? | Hp]; [discriminate | congruence].
  - by rewrite IH.
Qed.

Lemma load_single_category_file (category : string) (content : string) :
  PyStr.contains category "_domains" = false →
  glob_domains_txt (category +:+ "_domains.txt") = true
  ∧ category_of_file (category +:+ "_domains.txt") = category
  ∧ load_categories (Some [(category +:+ "_domains.txt", Some content)])
    = [(category, load_domains content)].
Proof.
  intros Hno.
  assert (glob_domains_txt (category +:+ "_domains.txt") = true) as Hglob.
  { apply endswith_spec. by exists category. }
  assert (category_of_file (category +:+ "_domains.txt") = category) as Hname.
  { unfold category_of_file.
    replace (category +:+ "_domains.txt") with ((category +:+ "_domains") +:+ ".txt")
      by (by rewrite append_assoc).
    rewrite stem_txt. by apply replace_domains_suffix. }
  split_and!; [done | done |].
  unfold load_categories. rewrite filter_cons_True by done.
  rewrite filter_nil. simpl. unfold load_category_file. simpl. by rewrite Hname.
Qed.

Lemma contains_char (s : string) (c : ascii) :
  PyStr.contains s (String c "") = true ↔ mentions s c.
Proof.
  induction s as [|x s IH].
  - change (PyStr.contains "" (String c "")) with (String.prefix (String c "") "" || false).
    simpl. split; [done | by intros []].
  - change (PyStr.contains (String x s) (String c ""))
      with (String.prefix (String c "") (String x s) || PyStr.contains s (String c "")).
    rewrite orb_true_iff, prefix_cons, prefix_nil, andb_true_r, bool_decide_eq_true, IH.
    done.
Qed.

(** The file of a category whose name holds no separator is an entry of
    the domains directory itself. *)
Lemma category_file_entry (category : string) :
  PyStr.contains category "/" = false →
  PyStr.contains (category +:+ "_domains.txt") "/" = false.
Proof.
  intros Hno. apply not_true_is_false. intros Hyes.
  apply contains_char, mentions_app in Hyes as [Hyes | Hyes].
  - apply contains_char in Hyes. congruence.
  - simpl in Hyes. repeat destruct Hyes as [Hyes | Hyes]; discriminate || done.
Qed.

(** X16.  A category whose name holds neither [_domains] nor a path
    separator finds its file again: the file that [download_category]
    writes is an entry of the domains directory itself, its name matches
    the pattern the parser lists, and the parser reads the category's
    name back from it. *)
Theorem category_of_file_round_trip (self : DomainUpdater) (category : string)
    (content : string) :
  PyStr.contains category "_domains" = false →
  PyStr.contains category "/" = false →
  let name := category +:+ "_domains.txt" in
  category_file self category = joinpath (domains_path self) name
  ∧ PyStr.startswith name "/" = false
  ∧ PyStr.contains name "/" = false
  ∧ glob_domains_txt name = true
  ∧ category_of_file name = category
  ∧ load_categories (Some [(name, Some content)]) = [(category, load_domains content)].
Proof.
  intros Hname Hsep name.
  pose proof (category_file_entry category Hsep) as Hentry. fold name in Hentry.
  destruct (load_single_category_file category content Hname) as (Hglob & Hback & Hload).
  split_and!; try done.
  destruct name as [|c rest] eqn:Hn; [done |].
  change (PyStr.contains (String c rest) "/")
    with (String.prefix "/" (String c rest) || PyStr.contains rest "/") in Hentry.
  by apply orb_false_iff in Hentry as [? _].
Qed.

Lemma category_of_file_round_trip_witness :
  category_file updater0 "social" = "/srv/domains/social_domains.txt"
  ∧ category_of_file "social_domains.txt" = "social"
  ∧ load_categories (Some [("social_domains.txt", Some "chat.example")])
    = [("social", load_domains "chat.example")].
Proof.
  destruct (category_of_file_round_trip updater0 "social" "chat.example")
    as (Hfile & _ & _ & _ & Hname & Hload).
  - reflexivity.
  - reflexivity.
  - split_and!; [exact Hfile | exact Hname | exact Hload].
Defined.

(** A category whose name holds [_domains] is read back under another
    name, and the file of a category whose name holds a separator is
    written below the domains directory, where the parser does not
    look. *)
Example category_names_not_read_back :
  category_of_file ("ad_domains_x" +:+ "_domains.txt") = "ad_x"
  ∧ category_file updater0 "a/b" = "/srv/domains/a/b_domains.txt"
  ∧ category_file updater0 "/tmp/x" = "/tmp/x_domains.txt".
Proof. by split_and!. Qed.




(* ===================================================================== *)
(** ** More on parse_logs and generate_summary *)
(* ===================================================================== *)

Lemma insert_desc_Permutation (r : QueryRecord) (l : list QueryRecord) :
  insert_desc r l ≡ₚ r :: l.
Proof.
  induction l as [|r' l IH]; simpl; [done |].
  destruct (timestamp r' <=? timestamp r); [done |].
  rewrite IH. apply Permutation_swap.
Qed.

Lemma order_by_timestamp_desc_Permutation (l : list QueryRecord) :
  order_by_timestamp_desc l ≡ₚ l.
Proof.
  induction l as [|r l IH]; simpl; [done |]. by rewrite insert_desc_Permutation, IH.
Qed.

Lemma StronglySorted_filter {A} (R : relation A) (P : A → Prop) `{∀ x, Decision (P x)}
    (l : list A) :
  StronglySorted R l → StronglySorted R (filter P l).
Proof.
  induction 1 as [|x l Hsorted IH Hall]; [constructor |].
  rewrite filter_cons. destruct (decide (P x)); [| done].
  constructor; [done |]. apply Forall_forall. intros y [_ Hy]%list_elem_of_filter.
  rewrite Forall_forall in Hall. by apply Hall.
Qed.

Lemma filter_all {A} (keep : A → bool) (l : list A) :
  (∀ x, keep x = true) → filter (λ x, keep x = true) l = l.
Proof.
  intros Hall. induction l as [|x l IH]; [done |]. by rewrite filter_cons_True, IH.
Qed.

Lemma query_process_row (self : LogParser) (l : list QueryRecord) :
  query <$> (process_row self <$> l) = l.
Proof. induction l as [|r l IH]; [done |]. rewrite !fmap_cons. by rewrite IH. Qed.

Lemma window_of_elem (t : Z) (rows : list QueryRecord) (r : QueryRecord) :
  r ∈ window_of t rows ↔ r ∈ rows ∧ t ≤ timestamp r.
Proof.
  unfold window_of. rewrite order_by_timestamp_desc_Permutation, list_elem_of_filter. tauto.
Qed.

(** The rows of [parse_logs]: records of the window, newest first, each
    with its columns, less the rows a filter dropped. *)
Lemma parse_logs_rows (host : Host) (self : LogParser) (days : Z)
    (device_filter : option string) (df : list LogRow) :
  parse_logs host self days device_filter = Return df →
  ∃ (rows : list QueryRecord) (t : Z) (keep : QueryRecord → bool),
    df = process_row self <$> filter (λ r, keep r = true) (window_of t rows)
    ∧ (df ≠ [] →
       db self = DbQueries rows
       ∧ window_starts host days t
       ∧ Forall (λ r, to_datetime_ok host (timestamp r) = true) (window_of t rows)).
Proof.
  intros Hrun.
  assert (df = [] →
          ∃ (rows : list QueryRecord) (t : Z) (keep : QueryRecord → bool),
            df = process_row self <$> filter (λ r, keep r = true) (window_of t rows)
            ∧ (df ≠ [] →
               db self = DbQueries rows
               ∧ window_starts host days t
               ∧ Forall (λ r, to_datetime_ok host (timestamp r) = true) (window_of t rows)))
    as Hempty.
  { intros ->. exists [], 0, (λ _, true). by split. }
  destruct (check_db_connection self) eqn:Hcheck;
    [| rewrite parse_logs_unavailable in Hrun by done; injection Hrun as <-; by apply Hempty].
  destruct (start_time host days) as [d | e] eqn:Hstart;
    [| by rewrite (parse_logs_overflow _ _ _ _ e) in Hrun].
  destruct (local_timestamp host d) as [t | e] eqn:Hlocal;
    [| rewrite (parse_logs_no_timestamp _ _ _ _ d e) in Hrun by done;
       injection Hrun as <-; by apply Hempty].
  assert (window_starts host days t) as Hwindow by (by exists d).
  destruct (db self) as [| | | | rows] eqn:Hdb;
    try (unfold check_db_connection in Hcheck; rewrite Hdb in Hcheck; discriminate).
  { unfold parse_logs, parse_logs_try, check_db_connection, read_sql in Hrun.
    rewrite Hdb, Hstart, Hlocal in Hrun. injection Hrun as <-. by apply Hempty. }
  rewrite (parse_logs_readable host self days device_filter rows t Hdb Hwindow) in Hrun.
  injection Hrun as Hrun.
  destruct (forallb _ (window_of t rows)) eqn:Hall; [| by apply Hempty].
  apply forallb_Forall in Hall.
  destruct device_filter as [pat |].
  - destruct (String.eqb pat "").
    + exists rows, t, (λ _, true). rewrite filter_all by done. by subst df.
    + destruct (str_contains host pat) as [matches |]; [| by apply Hempty].
      exists rows, t, (λ r, matches (device_of self r)). split; [| done].
      by rewrite <- Hrun, filter_fmap.
  - exists rows, t, (λ _, true). rewrite filter_all by done. by subst df.
Qed.

(** X18.  The rows that [parse_logs] returns are records of the window:
    each carries the columns computed from its record and a time that
    pandas can hold, and the rows are ordered newest first.  On a store
    that answers, for a window that starts, each row comes from the
    store and lies at or after the start of the window; no row is
    returned when pandas cannot hold the time of some record of the
    window; and when it can hold them all, the rows returned without a
    filter (or with the empty one) are all the records of the window,
    each once. *)
Theorem parse_logs_window (host : Host) (self : LogParser) (days : Z)
    (device_filter : option string) (df : list LogRow) :
  parse_logs host self days device_filter = Return df →
  Forall (λ row, row = process_row self (query row)
                 ∧ to_datetime_ok host (Time row) = true) df
  ∧ StronglySorted (λ a b, Time b ≤ Time a) df
  ∧ ∀ rows t,
      db self = DbQueries rows →
      window_starts host days t →
      Forall (λ row, query row ∈ rows ∧ t ≤ Time row) df
      ∧ (Exists (λ r, to_datetime_ok host (timestamp r) = false) (window_of t rows) →
         df = [])
      ∧ ((device_filter = None ∨ device_filter = Some "") →
         Forall (λ r, to_datetime_ok host (timestamp r) = true) (window_of t rows) →
         query <$> df = window_of t rows
         ∧ query <$> df ≡ₚ filter (λ r, t ≤ timestamp r) rows).
Proof.
  intros Hrun. split_and!.
  - destruct (parse_logs_rows _ _ _ _ _ Hrun) as (rows & t & keep & Hdf & Hne).
    rewrite Hdf. apply Forall_fmap, Forall_forall. intros r Hr. simpl. split; [done |].
    destruct Hne as (_ & _ & Hheld).
    { rewrite Hdf. intros Hnil. apply fmap_nil_inv in Hnil. rewrite Hnil in Hr.
      by apply elem_of_nil in Hr. }
    apply list_elem_of_filter in Hr as [_ Hr].
    rewrite Forall_forall in Hheld. by apply Hheld.
  - destruct (parse_logs_rows _ _ _ _ _ Hrun) as (rows & t & keep & -> & _).
    apply (StronglySorted_fmap _ (λ a b, timestamp b ≤ timestamp a)); [done |].
    apply StronglySorted_filter, order_by_timestamp_desc_sorted.
  - intros rows t Hdb Hstart.
    rewrite (parse_logs_readable host self days device_filter rows t Hdb Hstart) in Hrun.
    injection Hrun as Hrun.
    destruct (forallb _ (window_of t rows)) eqn:Hall.
    + assert (Forall (λ row, query row ∈ rows ∧ t ≤ Time row)
                (process_row self <$> window_of t rows)) as Hwindow.
      { apply Forall_fmap, Forall_forall. intros r Hr. simpl. by apply window_of_elem. }
      assert (df = process_row self <$> window_of t rows →
              Forall (λ row, query row ∈ rows ∧ t ≤ Time row) df
              ∧ (Exists (λ r, to_datetime_ok host (timestamp r) = false) (window_of t rows) →
                 df = [])
              ∧ ((device_filter = None ∨ device_filter = Some "") →
                 Forall (λ r, to_datetime_ok host (timestamp r) = true) (window_of t rows) →
                 query <$> df = window_of t rows
                 ∧ query <$> df ≡ₚ filter (λ r, t ≤ timestamp r) rows)) as Hwhole.
      { intros ->. split_and!; [done | |].
        - intros Hout. apply forallb_Exists in Hout. congruence.
        - intros _ _. rewrite query_process_row. split; [done |].
          apply order_by_timestamp_desc_Permutation. }
      destruct device_filter as [pat |]; [| by apply Hwhole].
      destruct (String.eqb_spec pat "") as [-> | Hpat]; [by apply Hwhole |].
      split_and!.
      * destruct (str_contains host pat) as [matches |]; subst df; [| constructor].
        apply Forall_forall. intros row [_ Hrow]%list_elem_of_filter.
        rewrite Forall_forall in Hwindow. by apply Hwindow.
      * intros Hout. apply forallb_Exists in Hout. congruence.
      * intros [? | [= ->]]; done.
    + subst df. split_and!; [constructor | done |].
      intros _ Hheld. apply forallb_Forall in Hheld. congruence.
Qed.

Lemma parse_logs_window_witness :
  let self := parser_over (DbQueries [query_from "192.168.1.12" 1; query_from "192.168.1.1" 2]) in
  ∃ df, parse_logs utc_host self 1 (Some "tv") = Return df
        ∧ Forall (λ row, row = process_row self (query row)
                         ∧ to_datetime_ok utc_host (Time row) = true) df
        ∧ StronglySorted (λ a b, Time b ≤ Time a) df.
Proof.
  intros self.
  set (df := match parse_logs utc_host self 1 (Some "tv") with
             | Return df => df
             | Raise _ => []
             end).
  assert (parse_logs utc_host self 1 (Some "tv") = Return df) as Hrun
    by (vm_compute; reflexivity).
  destruct (parse_logs_window utc_host self 1 (Some "tv") df Hrun) as (Hrows & Hsorted & _).
  exists df. split_and!; [exact Hrun | exact Hrows | exact Hsorted].
Defined.

Lemma status_description_allowed (s : Z) :
  default "Unknown" (status_map !! s) = "Allowed" ↔ s = 2.
Proof.
  unfold status_map. simpl list_to_map. split.
  - rewrite !lookup_insert. repeat case_decide; subst; try done.
  - intros ->. reflexivity.
Qed.

(** X19.  The status description and the blocked count agree: a row of
    [parse_logs] is described as "Allowed" exactly when its status code
    is 2, so [blocked_queries] is the number of rows whose description
    is anything else, "Unknown" included. *)
Theorem blocked_queries_are_the_rows_not_allowed (host : Host) (self : LogParser)
    (days : Z) (device_filter : option string) (df : list LogRow) :
  parse_logs host self days device_filter = Return df →
  Forall (λ row, Status_Description row = "Allowed" ↔ status (query row) = 2) df
  ∧ blocked_count df
    = Z.of_nat (length (filter (λ row, Status_Description row ≠ "Allowed") df)).
Proof.
  intros Hrun. destruct (parse_logs_rows _ _ _ _ _ Hrun) as (rows & t & keep & -> & _).
  assert (Forall (λ row, Status_Description row = "Allowed" ↔ status (query row) = 2)
            (process_row self <$> filter (λ r, keep r = true) (window_of t rows))) as Hall.
  { apply Forall_fmap, Forall_forall. intros r _. simpl. apply status_description_allowed. }
  split; [done |]. unfold blocked_count. do 2 f_equal. clear Hrun.
  induction Hall as [|row l Hrow _ IH]; [done |].
  rewrite !filter_cons. destruct (decide (status (query row) ≠ 2)) as [Hb | Hb].
  - rewrite decide_True by tauto. by rewrite IH.
  - rewrite decide_False by tauto. done.
Qed.

Lemma blocked_queries_are_the_rows_not_allowed_witness :
  let self := parser_over (DbQueries [query_from "192.168.1.12" 0; query_from "192.168.1.1" 2]) in
  ∃ df, parse_logs utc_host self 1 None = Return df
        ∧ blocked_count df
          = Z.of_nat (length (filter (λ row, Status_Description row ≠ "Allowed") df))
        ∧ blocked_count df = 1.
Proof.
  intros self.
  set (df := match parse_logs utc_host self 1 None with
             | Return df => df
             | Raise _ => []
             end).
  assert (parse_logs utc_host self 1 None = Return df) as Hrun by (vm_compute; reflexivity).
  destruct (blocked_queries_are_the_rows_not_allowed utc_host self 1 None df Hrun)
    as (_ & Hcount).
  exists df. split_and!; [exact Hrun | exact Hcount | vm_compute; reflexivity].
Defined.

Lemma size_list_to_set_le (l : list string) :
  (size (list_to_set l : gset string) ≤ length l)%nat.
Proof.
  induction l as [|x l IH]; [done |].
  cbn [list_to_set length]. rewrite size_union_alt, size_singleton.
  pose proof (subseteq_size (list_to_set l ∖ {[x]}) (list_to_set l : gset string)
                ltac:(set_solver)). lia.
Qed.

Lemma nunique_bounds (values : list string) :
  values ≠ [] → 1 ≤ nunique values ≤ Z.of_nat (length values).
Proof.
  intros Hne. unfold nunique. pose proof (size_list_to_set_le values).
  split; [| lia]. destruct values as [|x l]; [done |].
  pose proof (subseteq_size ({[x]} : gset string) (list_to_set (x :: l))
                ltac:(set_solver)) as Hone.
  rewrite size_singleton in Hone. lia.
Qed.

(** X20.  The counts of a summary fit together: for a batch that is not
    empty, [total_queries] is the number of rows and is positive,
    [blocked_queries] lies between 0 and it, and [unique_domains] and
    [unique_devices] lie between 1 and it. *)
Theorem generate_summary_counts (isoformat : Z → string)
    (value_counts : list string → list (string * Z)) (df : list LogRow) :
  df ≠ [] →
  ∃ total blocked domains devices,
    generate_summary isoformat value_counts df !! "total_queries" = Some (PyInt total)
    ∧ generate_summary isoformat value_counts df !! "blocked_queries" = Some (PyInt blocked)
    ∧ generate_summary isoformat value_counts df !! "unique_domains" = Some (PyInt domains)
    ∧ generate_summary isoformat value_counts df !! "unique_devices" = Some (PyInt devices)
    ∧ total = Z.of_nat (length df) ∧ 0 < total
    ∧ 0 ≤ blocked ≤ total
    ∧ 1 ≤ domains ≤ total
    ∧ 1 ≤ devices ≤ total.
Proof.
  intros Hne. destruct df as [|row0 rest]; [done |]. set (df := row0 :: rest).
  exists (Z.of_nat (length df)), (blocked_count df),
    (nunique ((domain ∘ query) <$> df)), (nunique (Device <$> df)).
  pose proof (length_filter (λ row, status (query row) ≠ 2) df) as Hblocked.
  assert (1 ≤ nunique ((domain ∘ query) <$> df) ≤ Z.of_nat (length df)) as Hdomains.
  { rewrite <- (length_fmap (domain ∘ query)). by apply nunique_bounds. }
  assert (1 ≤ nunique (Device <$> df) ≤ Z.of_nat (length df)) as Hdevices.
  { rewrite <- (length_fmap Device). by apply nunique_bounds. }
  assert (0 < Z.of_nat (length df)) as Hpos by (unfold df; simpl; lia).
  split_and!; try reflexivity; try (unfold blocked_count; lia).
Qed.

Lemma generate_summary_counts_witness :
  let df := process_row (parser_over DbMissing)
              <$> [query_from "192.168.1.12" 1; query_from "192.168.1.12" 2] in
  ∃ total domains,
    generate_summary (λ _, "") (λ _, []) df !! "total_queries" = Some (PyInt total)
    ∧ generate_summary (λ _, "") (λ _, []) df !! "unique_domains" = Some (PyInt domains)
    ∧ 1 ≤ domains ≤ total.
Proof.
  intros df.
  destruct (generate_summary_counts (λ _, "") (λ _, []) df)
    as (total & blocked & domains & devices & Ht & _ & Hd & _ & _ & _ & _ & Hbound & _).
  - discriminate.
  - exists total, domains. exact (conj Ht (conj Hd Hbound)).
Defined.


Lemma parse_logs_empty_filter (host : Host) (self : LogParser) (days : Z) :
  parse_logs host self days (Some "") = parse_logs host self days None.
Proof.
  unfold parse_logs, parse_logs_try. destruct (negb _); [done |].
  destruct (start_time host days) as [d | e]; [| done].
  destruct (local_timestamp host d) as [t | e]; [| done].
  destruct (read_sql (db self) t) as [[|r rs] | e]; try done.
Qed.

(** Whether [parse_logs] returns does not depend on the filter. *)
Lemma parse_logs_unfiltered_returns (host : Host) (self : LogParser) (days : Z)
    (device_filter : option string) (filtered : list LogRow) :
  parse_logs host self days device_filter = Return filtered →
  ∃ df, parse_logs host self days None = Return df.
Proof.
  unfold parse_logs. destruct (negb _); [by eexists |].
  destruct (start_time host days) as [d | e]; [| done]. intros _.
  destruct (parse_logs_try host self d None); by eexists.
Qed.

(** X21.  A device filter only takes rows away: the rows returned with a
    filter are rows returned without one, in the same order, so there
    are no more of them; the empty filter takes none away. *)
Theorem parse_logs_filter_only_removes (host : Host) (self : LogParser)
    (days : Z) (device_filter : option string) (filtered : list LogRow) :
  parse_logs host self days device_filter = Return filtered →
  ∃ df, parse_logs host self days None = Return df
        ∧ filtered `sublist_of` df
        ∧ (length filtered ≤ length df)%nat
        ∧ (device_filter = Some "" → filtered = df).
Proof.
  intros Hrun.
  destruct (parse_logs_unfiltered_returns _ _ _ _ _ Hrun) as [df Hdf].
  exists df. split; [done |].
  assert (filtered `sublist_of` df) as Hsub.
  { destruct (decide (filtered = [])) as [-> | Hne]; [apply sublist_nil_l |].
    destruct (parse_logs_rows _ _ _ _ _ Hrun) as (rows & t & keep & Hfiltered & Hwhy).
    destruct (Hwhy Hne) as (Hdb & Hstart & Hheld).
    rewrite (parse_logs_readable host self days None rows t Hdb Hstart) in Hdf.
    apply forallb_Forall in Hheld. rewrite Hheld in Hdf. injection Hdf as <-.
    rewrite Hfiltered. apply fmap_sublist, sublist_filter. }
  split_and!; [done | by apply sublist_length |].
  intros ->. rewrite parse_logs_empty_filter in Hrun. congruence.
Qed.

Lemma parse_logs_filter_only_removes_witness :
  let self := parser_over (DbQueries [query_from "192.168.1.12" 1; query_from "192.168.1.1" 2]) in
  ∃ filtered df,
    parse_logs utc_host self 1 (Some "tv") = Return filtered
    ∧ parse_logs utc_host self 1 None = Return df
    ∧ filtered `sublist_of` df
    ∧ (length filtered ≤ length df)%nat.
Proof.
  intros self.
  set (filtered := match parse_logs utc_host self 1 (Some "tv") with
                   | Return df => df
                   | Raise _ => []
                   end).
  assert (parse_logs utc_host self 1 (Some "tv") = Return filtered) as Hrun
    by (vm_compute; reflexivity).
  destruct (parse_logs_filter_only_removes utc_host self 1 (Some "tv") filtered Hrun)
    as (df & Hall & Hsub & Hlen & _).
  exists filtered, df. exact (conj Hrun (conj Hall (conj Hsub Hlen))).
Defined.

(** X22.  [main] of log_parser.py exits with status 0 or 1.  The status
    is 0 exactly when the store answers, the window of the last day
    starts, it holds a record, and pandas can hold the time of each of
    its records; a summary whose [total_queries] is positive is then
    printed.  In every other case the status is 1 and no summary is
    printed. *)
Theorem parser_main_exit_status (isoformat : Z → string)
    (value_counts : list string → list (string * Z)) (host : Host) (self : LogParser) :
  let status := (parser_main isoformat value_counts host self).1 in
  let printed := (parser_main isoformat value_counts host self).2 in
  (status = 0 ∨ status = 1)
  ∧ (status = 0
     ↔ ∃ rows t, db self = DbQueries rows
                 ∧ window_starts host 1 t
                 ∧ window_of t rows ≠ []
                 ∧ Forall (λ r, to_datetime_ok host (timestamp r) = true) (window_of t rows))
  ∧ (status = 1 → printed = None)
  ∧ (status = 0 →
     ∃ summary n, printed = Some summary
                  ∧ summary !! "total_queries" = Some (PyInt n) ∧ 0 < n).
Proof.
  intros status printed. unfold status, printed, parser_main.
  assert ((∃ rows t, db self = DbQueries rows
                     ∧ window_starts host 1 t
                     ∧ window_of t rows ≠ []
                     ∧ Forall (λ r, to_datetime_ok host (timestamp r) = true)
                         (window_of t rows))
          → ∃ row rest, parse_logs host self 1 None = Return (row :: rest)) as Hrows.
  { intros (rows & t & Hdb & Hstart & Hne & Hheld).
    rewrite (parse_logs_readable host self 1 None rows t Hdb Hstart).
    apply forallb_Forall in Hheld. rewrite Hheld.
    destruct (window_of t rows) as [|r rs]; [done |]. by eexists _, _. }
  destruct (parse_logs host self 1 None) as [[|row rest] | e] eqn:Hrun; simpl.
  - split_and!; [by right | | done | done].
    split; [done |]. intros Hwhy. by destruct (Hrows Hwhy) as (row & rest & ?).
  - split_and!; [by left | | done |].
    + split; [intros _ | done].
      destruct (parse_logs_rows _ _ _ _ _ Hrun) as (rows & t & keep & Hdf & Hwhy).
      destruct (Hwhy ltac:(done)) as (Hdb & Hstart & Hheld).
      exists rows, t. split_and!; [done | done | | done].
      intros Hnil. by rewrite Hnil in Hdf.
    + intros _. eexists _, _. split_and!; [done | reflexivity | lia].
  - split_and!; [by right | | done | done].
    split; [done |]. intros Hwhy. by destruct (Hrows Hwhy) as (row & rest & ?).
Qed.
